(** * gym_ropod.envs.ropod_env: the RopodEnv lifecycle manager

    A shallow embedding of [src/gym_ropod/envs/ropod_env.py].

    The class holds no data of its own beyond four instance attributes; all of
    its behaviour is a sequence of calls into [os], [subprocess], [time],
    [rospy] and [print].  The embedding therefore has three layers:

    - the machine the code runs on: the instance dictionary of [self], the
      process table, the file system and the ROS services, plus a
      chronological log of every library call the code makes;
    - a small monad [py] for Python control flow: a computation returns a
      value, raises an exception, or blocks for ever;
    - the methods of [RopodEnv], transcribed statement by statement.

    What the machine does and does not cover:

    - spawning succeeds: the executables [roscore], [roslaunch] and
      [gzclient] are taken to be installed;
    - a process leaves the running state when SIGTERM is delivered to it, or
      when the environment lets it exit between two method calls ([Dies] in
      a history); an executable may ignore SIGTERM, and a wait for such a
      process never returns;
    - a ROS service either comes up or never does; waiting without a timeout
      for one that never does blocks for ever;
    - the machine changes only at a library call or between two method
      calls: no process exits while a method is running, so a wait for a
      running process is a wait without end, and [poll] reports a process
      that was sent SIGTERM as not yet exited until it has been waited for;
    - time is not measured: [time.sleep] is a logged call. *)

From Stdlib Require Import ZArith.
From stdpp Require Import gmap strings list fin_maps.

Open Scope Z_scope.
Open Scope nat_scope.

(** ** Values, exceptions, events *)

(** The Python values the class stores or receives.  A [subprocess.Popen]
    object is identified with the index of its process in the process
    table. *)
Inductive pyval : Type :=
  | VNone
  | VInt (n : Z)
  | VStr (s : string)
  | VPopen (pid : nat)
  | VServiceProxy (name : string) (service_class : string).

Definition is_None (v : pyval) : bool :=
  match v with VNone => true | _ => false end.

(** The exceptions that can travel through the code.  The first two are
    raised by the class itself; the others come from the interpreter
    (a missing attribute or method), from [rospy] (a readiness wait whose
    timeout expires) and from the process layer (a handle that denotes no
    child process). *)
Inductive exn : Type :=
  | IOError (msg : string)
  | NotImplementedError
  | AttributeError (name : string)
  | ROSException (msg : string)
  | ChildProcessError (pid : nat).

(** [termcolor.colored text color]: the text together with its colour. *)
Record styled : Type := Styled { st_text : string; st_color : string }.

Definition colored (text color : string) : styled := Styled text color.

(** One entry of the log per library call, in the order the calls are made. *)
Inductive event : Type :=
  | EExists (path : string)                             (* os.path.exists *)
  | EPrint (msg : styled)                               (* print *)
  | ESpawn (args : list string) (pid : nat)             (* subprocess.Popen *)
  | ESleep (secs : Z)                                   (* time.sleep *)
  | EWaitForService (name : string) (timeout : option Z) (* rospy.wait_for_service *)
  | EServiceProxy (name : string) (service_class : string) (* rospy.ServiceProxy *)
  | EInitNode (name : string)                           (* rospy.init_node *)
  | EPoll (pid : nat)                                   (* Popen.poll *)
  | ETerminate (pid : nat)                              (* Popen.terminate *)
  | EWait (pid : nat).                                  (* Popen.wait *)

Definition is_spawn (e : event) : bool :=
  match e with ESpawn _ _ => true | _ => false end.

(** ** The machine *)

(** A child process is running, has been sent SIGTERM and not been waited
    for yet, or has exited with a return code. *)
Inductive pstatus : Type :=
  | Running
  | Signalled
  | Exited (returncode : Z).

Record process : Type := Process { argv : list string; status : pstatus }.

Definition SIGTERM : Z := 15%Z.

Record state : Type := State {
  self : gmap string pyval;   (* the instance dictionary of the RopodEnv *)
  procs : list process;       (* process table; a handle is an index *)
  files : gset string;        (* paths for which os.path.exists holds *)
  services : gset string;     (* ROS services that become available *)
  deaf : gset string;         (* executables that ignore SIGTERM *)
  log : list event            (* library calls made so far, oldest first *)
}.

Definition set_self (d : gmap string pyval) (s : state) : state :=
  State d (procs s) (files s) (services s) (deaf s) (log s).

Definition set_procs (ps : list process) (s : state) : state :=
  State (self s) ps (files s) (services s) (deaf s) (log s).

Definition add_log (e : event) (s : state) : state :=
  State (self s) (procs s) (files s) (services s) (deaf s) (log s ++ [e]).

(** What [poll] reports for a process: [None] while it has not exited. *)
Definition returncode_of (p : process) : option Z :=
  match status p with
  | Exited c => Some c
  | Running | Signalled => None
  end.

(** Delivery of SIGTERM.  A running process that does not ignore the signal
    is marked; an exited process is left alone. *)
Definition deliver_sigterm (ignored : gset string) (p : process) : process :=
  match status p with
  | Running =>
      if bool_decide (hd ""%string (argv p) ∈ ignored) then p
      else Process (argv p) Signalled
  | Signalled | Exited _ => p
  end.

(** ** The monad of Python computations *)

Inductive outcome (A : Type) : Type :=
  | Ok (a : A)
  | Raise (e : exn)
  | Block.

Arguments Ok {A} a.
Arguments Raise {A} e.
Arguments Block {A}.

Definition py (A : Type) : Type := state → state * outcome A.

#[global] Instance py_ret : MRet py := λ A a s, (s, Ok a).

#[global] Instance py_bind : MBind py := λ A B k m s,
  match m s with
  | (s', Ok a) => k a s'
  | (s', Raise e) => (s', Raise e)
  | (s', Block) => (s', Block)
  end.

Definition raise {A : Type} (e : exn) : py A := λ s, (s, Raise e).

(** *** Attribute access on [self] *)

Definition getattr (name : string) : py pyval := λ s,
  match self s !! name with
  | Some v => (s, Ok v)
  | None => (s, Raise (AttributeError name))
  end.

Definition setattr (name : string) (v : pyval) : py unit := λ s,
  (set_self (<[name := v]> (self s)) s, Ok tt).

(** *** Library calls *)

Definition os_path_exists (path : string) : py bool := λ s,
  (add_log (EExists path) s, Ok (bool_decide (path ∈ files s))).

Definition print (msg : styled) : py unit := λ s,
  (add_log (EPrint msg) s, Ok tt).

Definition time_sleep (secs : Z) : py unit := λ s,
  (add_log (ESleep secs) s, Ok tt).

(** [subprocess.Popen(args)]: the child is appended to the process table and
    the new handle is returned. *)
Definition Popen (args : list string) : py pyval := λ s,
  let pid := length (procs s) in
  (add_log (ESpawn args pid) (set_procs (procs s ++ [Process args Running]) s),
   Ok (VPopen pid)).

(** [rospy.wait_for_service(name, timeout)]: returns once the service is
    available; otherwise blocks for ever when [timeout] is [None] and raises
    when a timeout was given. *)
Definition wait_for_service (name : string) (timeout : option Z) : py unit := λ s,
  let s' := add_log (EWaitForService name timeout) s in
  if bool_decide (name ∈ services s) then (s', Ok tt)
  else match timeout with
       | None => (s', Block)
       | Some _ => (s', Raise (ROSException ("timeout exceeded while waiting for service " +:+ name)))
       end.

Definition ServiceProxy (name service_class : string) : py pyval := λ s,
  (add_log (EServiceProxy name service_class) s, Ok (VServiceProxy name service_class)).

Definition init_node (name : string) : py unit := λ s,
  (add_log (EInitNode name) s, Ok tt).

(** *** Methods of a [Popen] object

    Calling one of them on a value that is not a [Popen] object is an
    [AttributeError], as in Python. *)

Definition poll (v : pyval) : py (option Z) := λ s,
  match v with
  | VPopen pid =>
      match procs s !! pid with
      | Some p => (add_log (EPoll pid) s, Ok (returncode_of p))
      | None => (s, Raise (ChildProcessError pid))
      end
  | _ => (s, Raise (AttributeError "poll"))
  end.

Definition terminate (v : pyval) : py unit := λ s,
  match v with
  | VPopen pid =>
      match procs s !! pid with
      | Some _ =>
          (add_log (ETerminate pid)
             (set_procs (alter (deliver_sigterm (deaf s)) pid (procs s)) s),
           Ok tt)
      | None => (s, Raise (ChildProcessError pid))
      end
  | _ => (s, Raise (AttributeError "terminate"))
  end.

(** [wait] collects a process that was sent SIGTERM (return code
    [-SIGTERM]), returns the return code of an exited process, and never
    returns for a process that keeps running. *)
Definition reap (p : process) : process :=
  match status p with
  | Signalled => Process (argv p) (Exited (- SIGTERM))
  | Running | Exited _ => p
  end.

Definition wait (v : pyval) : py Z := λ s,
  match v with
  | VPopen pid =>
      match procs s !! pid with
      | Some p =>
          match returncode_of (reap p) with
          | Some c =>
              (add_log (EWait pid) (set_procs (alter reap pid (procs s)) s), Ok c)
          | None => (add_log (EWait pid) s, Block)
          end
      | None => (s, Raise (ChildProcessError pid))
      end
  | _ => (s, Raise (AttributeError "wait"))
  end.

(** ** The class *)

Module RopodEnv.

Definition default_roscore_port : string := "11311".
Definition default_reset_sim_srv_name : string := "/gazebo/reset_world".

Definition __init__ (launch_file_path roscore_port reset_sim_srv_name : string)
  : py unit :=
  found ← os_path_exists launch_file_path;
  if negb found then
    raise (IOError (launch_file_path +:+ " is not a valid launch file path"))
  else
    print (colored "[RopodEnv] Launching roscore..." "green");;
    p ← Popen ["roscore"; "-p"; roscore_port];
    setattr "roscore_process" p;;
    time_sleep 1;;
    print (colored "[RopodEnv] Roscore launched!" "green");;

    print (colored "[RopodEnv] Launching simulator..." "green");;
    p ← Popen ["roslaunch"; "-p"; roscore_port; launch_file_path; "gui:=false"];
    setattr "sim_process" p;;
    print (colored "[RopodEnv] Simulator launched!" "green");;

    print (colored ("[RopodEnv] Waiting for service " +:+ reset_sim_srv_name) "green");;
    wait_for_service reset_sim_srv_name None;;
    proxy ← ServiceProxy reset_sim_srv_name "std_srvs.Empty";
    setattr "reset_sim_proxy" proxy;;
    print (colored ("[RopodEnv] Service " +:+ reset_sim_srv_name +:+ " is up") "green");;

    setattr "sim_vis_process" VNone;;

    print (colored "[RopodEnv] Initialising ROS node" "green");;
    init_node "gym";;
    print (colored "[RopodEnv] ROS node initialised" "green").

Definition step (action : pyval) : py pyval :=
  raise NotImplementedError.

Definition reset : py pyval :=
  raise NotImplementedError.

(** [if self.sim_vis_process is None or self.sim_vis_process.poll() is not None]:
    the attribute is read once per operand and [or] evaluates its second
    operand only when the first is false. *)
Definition render (mode : string) : py unit :=
  v ← getattr "sim_vis_process";
  restart ← (if is_None v then mret true
             else v' ← getattr "sim_vis_process";
                  rc ← poll v';
                  mret (bool_decide (rc ≠ None)));
  if restart : bool then
    p ← Popen ["gzclient"];
    setattr "sim_vis_process" p
  else mret tt.

Definition _close_sim_client : py unit :=
  v ← getattr "sim_vis_process";
  running ← (if negb (is_None v) then
               v' ← getattr "sim_vis_process";
               rc ← poll v';
               mret (bool_decide (rc = None))
             else mret false);
  if running : bool then
    v ← getattr "sim_vis_process";
    terminate v;;
    v ← getattr "sim_vis_process";
    wait v;;
    mret tt
  else mret tt.

Definition close : py unit :=
  _close_sim_client;;
  v ← getattr "sim_process"; terminate v;;
  v ← getattr "roscore_process"; terminate v;;
  v ← getattr "sim_process"; wait v;;
  v ← getattr "roscore_process"; wait v;;
  mret tt.

End RopodEnv.


(** The statements of [close] that follow the call of [_close_sim_client]. *)
Definition teardown : py unit :=
  v ← getattr "sim_process"; terminate v;;
  v ← getattr "roscore_process"; terminate v;;
  v ← getattr "sim_process"; wait v;;
  v ← getattr "roscore_process"; wait v;;
  mret tt.

(** ** Histories of an instance

    After construction a caller invokes the four public methods in any
    order; in between, the environment may let a child process exit on its
    own. *)

Inductive call : Type :=
  | CStep (action : pyval)
  | CReset
  | CRender (mode : string)
  | CClose.

Definition is_render (c : call) : bool :=
  match c with CRender _ => true | _ => false end.

Definition invoke (c : call) : py pyval :=
  match c with
  | CStep action => RopodEnv.step action
  | CReset => RopodEnv.reset
  | CRender mode => RopodEnv.render mode;; mret VNone
  | CClose => RopodEnv.close;; mret VNone
  end.

(** The environment: process [pid] exits by itself with return code [code]
    (nothing happens if it has exited already). *)
Definition exits (code : Z) (p : process) : process :=
  match status p with
  | Running | Signalled => Process (argv p) (Exited code)
  | Exited _ => p
  end.

Definition process_exits (pid : nat) (code : Z) (s : state) : state :=
  set_procs (alter (exits code) pid (procs s)) s.

Inductive action : Type :=
  | Call (c : call)
  | Dies (pid : nat) (code : Z).

Definition is_render_call (a : action) : bool :=
  match a with Call c => is_render c | Dies _ _ => false end.

(** A history is run from left to right.  An exception is the caller's to
    handle, so the history goes on after it; a call that blocks for ever
    ends the history. *)
Fixpoint run (h : list action) (s : state) : state :=
  match h with
  | [] => s
  | Call c :: h' =>
      match invoke c s with
      | (s', Block) => s'
      | (s', _) => run h' s'
      end
  | Dies pid code :: h' => run h' (process_exits pid code s)
  end.

(** The events an operation added to the log. *)
Definition events_since (s s' : state) : list event :=
  drop (length (log s)) (log s').

(** A fresh machine: an instance whose constructor has not run yet. *)
Definition boot (fs srv ignored : gset string) : state :=
  State ∅ [] fs srv ignored [].

(** The processes the constructor starts. *)
Definition roscore_proc (port : string) : process :=
  Process ["roscore"; "-p"; port] Running.

Definition roslaunch_proc (path port : string) : process :=
  Process ["roslaunch"; "-p"; port; path; "gui:=false"] Running.

(** The process [render] starts, and the machine after [render] has started
    it and made the calls [evs]. *)
Definition gzclient_proc : process := Process ["gzclient"] Running.

Definition rendered (s : state) (evs : list event) : state :=
  State (<["sim_vis_process" := VPopen (length (procs s))]> (self s))
        (procs s ++ [gzclient_proc])
        (files s) (services s) (deaf s)
        (log s ++ evs).

(** ** What the specification expects of the logs *)

(** The startup sequence up to and including the readiness wait, for a
    machine whose process table has [n] entries. *)
Definition startup_calls (path port srv : string) (n : nat) : list event :=
  [ EExists path;
    EPrint (colored "[RopodEnv] Launching roscore..." "green");
    ESpawn ["roscore"; "-p"; port] n;
    ESleep 1;
    EPrint (colored "[RopodEnv] Roscore launched!" "green");
    EPrint (colored "[RopodEnv] Launching simulator..." "green");
    ESpawn ["roslaunch"; "-p"; port; path; "gui:=false"] (S n);
    EPrint (colored "[RopodEnv] Simulator launched!" "green");
    EPrint (colored ("[RopodEnv] Waiting for service " +:+ srv) "green");
    EWaitForService srv None ].

(** What follows once the service is up. *)
Definition ready_calls (srv : string) : list event :=
  [ EServiceProxy srv "std_srvs.Empty";
    EPrint (colored ("[RopodEnv] Service " +:+ srv +:+ " is up") "green");
    EPrint (colored "[RopodEnv] Initialising ROS node" "green");
    EInitNode "gym";
    EPrint (colored "[RopodEnv] ROS node initialised" "green") ].

(** The instance dictionary a successful construction leaves behind. *)
Definition constructed_attrs (srv : string) (n : nat) (d : gmap string pyval)
  : gmap string pyval :=
  <["sim_vis_process" := VNone]>
    (<["reset_sim_proxy" := VServiceProxy srv "std_srvs.Empty"]>
       (<["sim_process" := VPopen (S n)]>
          (<["roscore_process" := VPopen n]> d))).


(** ** Vocabulary of the statements *)

(** The machine after some library calls: the process table has become [t]
    and the calls [evs] were logged; the instance dictionary and the
    environment's oracles are those of [s]. *)
Definition after (s : state) (t : list process) (evs : list event) : state :=
  State (self s) t (files s) (services s) (deaf s) (log s ++ evs).

(** What [poll] would report for handle [pid] in state [s]. *)
Definition exit_status (s : state) (pid : nat) : option Z :=
  procs s !! pid ≫= returncode_of.

(** Handle [pid] has been sent SIGTERM in table [t]: if its process is still
    running, then because the executable ignores the signal. *)
Definition heeded (ign : gset string) (t : list process) (pid : nat) : Prop :=
  ∀ p, t !! pid = Some p → status p = Running → hd ""%string (argv p) ∈ ign.

(** Handle [pid] denotes a process that has exited. *)
Definition exited (t : list process) (pid : nat) : Prop :=
  ∃ p c, t !! pid = Some p ∧ status p = Exited c.

(** A process that is running and whose executable ignores SIGTERM:
    [terminate] has no effect on it and [wait] never returns. *)
Definition stubborn (s : state) (pid : nat) : Prop :=
  ∃ p, procs s !! pid = Some p ∧ status p = Running
       ∧ hd ""%string (argv p) ∈ deaf s.

(** The value of [self.sim_vis_process]: [None] or a [Popen] object. *)
Definition vis_value (vis : option nat) : pyval :=
  from_option VPopen VNone vis.

(** The class invariant of a constructed instance: the broker and simulator
    attributes hold handles of processes in the table, and the visualization
    attribute holds [None] or such a handle. *)
Record instance (s : state) (ros sim : nat) (vis : option nat) : Prop := Instance {
  inst_roscore : self s !! "roscore_process" = Some (VPopen ros);
  inst_sim : self s !! "sim_process" = Some (VPopen sim);
  inst_vis : self s !! "sim_vis_process" = Some (vis_value vis);
  inst_roscore_valid : ros < length (procs s);
  inst_sim_valid : sim < length (procs s);
  inst_vis_valid : ∀ v, vis = Some v → v < length (procs s)
}.

(** Processes only move forward: running, then signalled, then exited; the
    command line never changes and a return code, once set, stays. *)
Definition rank (st : pstatus) : nat :=
  match st with
  | Running => 0
  | Signalled => 1
  | Exited _ => 2
  end.

Definition ages (p p' : process) : Prop :=
  argv p' = argv p
  ∧ (status p' = status p ∨ rank (status p) < rank (status p')).

Definition advances (t t' : list process) : Prop := Forall2 ages t t'.

(** The calls [_close_sim_client] is expected to make: none without a
    client, a poll for a client that has exited, and poll, terminate, wait
    for one that has not. *)
Definition client_plan (s : state) (vis : option nat) : list event :=
  match vis with
  | None => []
  | Some v =>
      match exit_status s v with
      | Some _ => [EPoll v]
      | None => [EPoll v; ETerminate v; EWait v]
      end
  end.

(** The calls on the simulator and the broker: both terminations are
    requested before either process is waited for. *)
Definition teardown_plan (ros sim : nat) : list event :=
  [ETerminate sim; ETerminate ros; EWait sim; EWait ros].

Definition close_plan (s : state) (ros sim : nat) (vis : option nat) : list event :=
  client_plan s vis ++ teardown_plan ros sim.

(** A history step that is the environment's and leaves process [n] alone. *)
Definition spares (n : nat) (a : action) : Prop :=
  match a with
  | Call _ => False
  | Dies pid _ => pid ≠ n
  end.

(** A computation that never writes an attribute of [self]. *)
Definition keeps_self {A : Type} (m : py A) : Prop :=
  ∀ s, self (m s).1 = self s.

(** A history without a call of [render]. *)
Definition no_render (h : list action) : Prop :=
  Forall (λ a, is_render_call a = false) h.

(** ** A laboratory

    A machine with one launch file, on which the reset service comes up and
    no executable ignores SIGTERM; the instance constructed on it with the
    default port and service; the same after a first [render]; and after the
    visualization client has then died. *)
Definition lab : state :=
  boot {["/sim.launch"]} {["/gazebo/reset_world"]} ∅.

Definition lab_env : state :=
  (RopodEnv.__init__ "/sim.launch" RopodEnv.default_roscore_port
     RopodEnv.default_reset_sim_srv_name lab).1.

Definition lab_rendered : state := (RopodEnv.render "human" lab_env).1.

Definition lab_crashed : state := process_exits 2 1%Z lab_rendered.

(** ** Vocabulary of the further properties *)

(** Calls that stop a process or wait for one. *)
Definition is_stop (e : event) : bool :=
  match e with
  | ETerminate _ | EWait _ => true
  | _ => false
  end.

(** The processes from index [base] on are the visualization clients the
    instance has started: each is a [gzclient], the handle, if any, is one of
    them, and all of them but the one the handle denotes have exited. *)
Record tidy (base : nat) (s : state) (vis : option nat) : Prop := Tidy {
  tidy_base : base ≤ length (procs s);
  tidy_vis : ∀ v, vis = Some v → base ≤ v;
  tidy_clients : ∀ pid p,
    base ≤ pid → procs s !! pid = Some p →
    argv p = ["gzclient"] ∧ (vis ≠ Some pid → ∃ c, status p = Exited c)
}.
(** ** Symbolic execution *)

Lemma py_bind_run {A B : Type} (m : py A) (k : A → py B) (s : state) :
  (m ≫= k) s =
  match m s with
  | (s', Ok a) => k a s'
  | (s', Raise e) => (s', Raise e)
  | (s', Block) => (s', Block)
  end.
Proof. reflexivity. Qed.

Ltac py_simpl :=
  cbn [self procs files services deaf log set_self set_procs add_log
       is_None negb fst snd].

Lemma state_ext (a b : state) :
  self a = self b → procs a = procs b → files a = files b →
  services a = services b → deaf a = deaf b → log a = log b → a = b.
Proof. destruct a, b. cbn. congruence. Qed.

Ltac py_unfold :=
  unfold mbind, py_bind, mret, py_ret, raise, getattr, setattr, os_path_exists,
    print, time_sleep, Popen, wait_for_service, ServiceProxy, init_node, poll,
    terminate, wait;
  py_simpl.

(** ** The constructor *)

Lemma init_raises (s : state) (path port srv : string) :
  path ∉ files s →
  RopodEnv.__init__ path port srv s
  = (add_log (EExists path) s,
     Raise (IOError (path +:+ " is not a valid launch file path"))).
Proof.
  intros Hmissing. unfold RopodEnv.__init__. py_unfold.
  rewrite bool_decide_eq_false_2 by done. reflexivity.
Qed.

(** C1. A launch file path that does not exist makes the constructor raise
    [IOError] straight after the existence test: the outcome is the
    exception, the only library call made is [os.path.exists], the process
    table is the one before the call (no broker, simulator or visualization
    process) and the instance dictionary is untouched. *)
Theorem init_missing_launch_file (s : state) (path port srv : string) :
  path ∉ files s →
  RopodEnv.__init__ path port srv s
    = (add_log (EExists path) s,
       Raise (IOError (path +:+ " is not a valid launch file path")))
  ∧ procs (RopodEnv.__init__ path port srv s).1 = procs s
  ∧ self (RopodEnv.__init__ path port srv s).1 = self s
  ∧ events_since s (RopodEnv.__init__ path port srv s).1 = [EExists path]
  ∧ filter is_spawn (events_since s (RopodEnv.__init__ path port srv s).1) = [].
Proof.
  intros Hmissing. rewrite (init_raises s path port srv Hmissing).
  assert (Hev : events_since s (add_log (EExists path) s) = [EExists path]).
  { unfold events_since. py_simpl. apply drop_app_length. }
  cbn [fst]. rewrite Hev. repeat split.
Qed.

Lemma init_missing_launch_file_witness :
  RopodEnv.__init__ "/nope.launch" "11311" "/gazebo/reset_world" lab
    = (add_log (EExists "/nope.launch") lab,
       Raise (IOError "/nope.launch is not a valid launch file path"))
  ∧ procs (RopodEnv.__init__ "/nope.launch" "11311" "/gazebo/reset_world" lab).1 = [].
Proof.
  assert (Hmissing : "/nope.launch" ∉ files lab)
    by (apply (bool_decide_unpack _); vm_compute; exact I).
  pose proof (init_missing_launch_file lab "/nope.launch" "11311"
                "/gazebo/reset_world" Hmissing) as (Hrun & Hprocs & _).
  split; [exact Hrun | exact Hprocs].
Defined.

Lemma init_returns (s : state) (path port srv : string) :
  path ∈ files s → srv ∈ services s →
  RopodEnv.__init__ path port srv s
  = (State (constructed_attrs srv (length (procs s)) (self s))
           (procs s ++ [roscore_proc port; roslaunch_proc path port])
           (files s) (services s) (deaf s)
           (log s ++ startup_calls path port srv (length (procs s)) ++ ready_calls srv),
     Ok tt).
Proof.
  intros Hpath Hsrv. unfold RopodEnv.__init__. py_unfold.
  rewrite (bool_decide_eq_true_2 (path ∈ files s)) by done. py_simpl.
  rewrite (bool_decide_eq_true_2 (srv ∈ services s)) by done. py_simpl.
  f_equal. apply state_ext; py_simpl; try reflexivity.
  - rewrite length_app, Nat.add_1_r. reflexivity.
  - by rewrite <- app_assoc.
  - rewrite length_app, Nat.add_1_r, <- !app_assoc. reflexivity.
Qed.

Lemma init_blocks (s : state) (path port srv : string) :
  path ∈ files s → srv ∉ services s →
  RopodEnv.__init__ path port srv s
  = (State (<["sim_process" := VPopen (S (length (procs s)))]>
              (<["roscore_process" := VPopen (length (procs s))]> (self s)))
           (procs s ++ [roscore_proc port; roslaunch_proc path port])
           (files s) (services s) (deaf s)
           (log s ++ startup_calls path port srv (length (procs s))),
     Block).
Proof.
  intros Hpath Hsrv. unfold RopodEnv.__init__. py_unfold.
  rewrite (bool_decide_eq_true_2 (path ∈ files s)) by done. py_simpl.
  rewrite (bool_decide_eq_false_2 (srv ∈ services s)) by done. py_simpl.
  f_equal. apply state_ext; py_simpl; try reflexivity.
  - rewrite length_app, Nat.add_1_r. reflexivity.
  - by rewrite <- app_assoc.
  - rewrite length_app, Nat.add_1_r, <- !app_assoc. reflexivity.
Qed.

(** C2. With an existing launch file the constructor's library calls are, in
    this order: spawn [roscore], sleep, spawn [roslaunch ... gui:=false],
    wait for the reset service with no timeout.  When the service comes up
    the constructor goes on to the proxy and the node and returns; when it
    never does, the constructor blocks in the wait and returns nothing. *)
Theorem init_startup_order (s : state) (path port srv : string) :
  path ∈ files s →
  let r := RopodEnv.__init__ path port srv s in
  let n := length (procs s) in
  (srv ∈ services s →
     r.2 = Ok tt
     ∧ events_since s r.1 = startup_calls path port srv n ++ ready_calls srv)
  ∧ (srv ∉ services s →
     r.2 = Block
     ∧ events_since s r.1 = startup_calls path port srv n)
  ∧ filter is_spawn (startup_calls path port srv n)
    = [ESpawn ["roscore"; "-p"; port] n;
       ESpawn ["roslaunch"; "-p"; port; path; "gui:=false"] (S n)]
  ∧ last (startup_calls path port srv n) = Some (EWaitForService srv None).
Proof.
  intros Hpath r n. subst r n. repeat split.
  - rewrite init_returns by done. reflexivity.
  - rewrite init_returns by done. unfold events_since. py_simpl.
    apply drop_app_length.
  - rewrite init_blocks by done. reflexivity.
  - rewrite init_blocks by done. unfold events_since. py_simpl.
    apply drop_app_length.
Qed.

Lemma init_startup_order_witness :
  (RopodEnv.__init__ "/sim.launch" "11311" "/gazebo/reset_world" lab).2 = Ok tt
  ∧ events_since lab
      (RopodEnv.__init__ "/sim.launch" "11311" "/gazebo/reset_world" lab).1
    = startup_calls "/sim.launch" "11311" "/gazebo/reset_world" 0
      ++ ready_calls "/gazebo/reset_world".
Proof.
  assert (Hpath : "/sim.launch" ∈ files lab)
    by (apply (bool_decide_unpack _); vm_compute; exact I).
  assert (Hsrv : "/gazebo/reset_world" ∈ services lab)
    by (apply (bool_decide_unpack _); vm_compute; exact I).
  exact (proj1 (init_startup_order lab "/sim.launch" "11311"
                  "/gazebo/reset_world" Hpath) Hsrv).
Defined.

(** ** The life of a process *)

Section lifecycle.
Implicit Types (p q : process) (t : list process).

Lemma ages_refl p : ages p p.
Proof. split; [done | by left]. Qed.

Lemma ages_trans p q r : ages p q → ages q r → ages p r.
Proof.
  intros [Ha1 Hs1] [Ha2 Hs2]. split; [congruence |].
  destruct Hs1 as [E1 | L1], Hs2 as [E2 | L2].
  - left. congruence.
  - right. rewrite <- E1. done.
  - right. rewrite E2. done.
  - right. lia.
Qed.

#[global] Instance ages_preorder : PreOrder ages.
Proof. split; [exact ages_refl | exact ages_trans]. Qed.

Lemma ages_deliver_sigterm ign p : ages p (deliver_sigterm ign p).
Proof.
  unfold deliver_sigterm. destruct (status p) eqn:E; try apply ages_refl.
  case_bool_decide; [apply ages_refl |].
  split; [done |]. right. rewrite E. cbn. lia.
Qed.

Lemma ages_reap p : ages p (reap p).
Proof.
  unfold reap. destruct (status p) eqn:E; try apply ages_refl.
  split; [done |]. right. rewrite E. cbn. lia.
Qed.

Lemma ages_exits code p : ages p (exits code p).
Proof.
  unfold exits. destruct (status p) eqn:E; try apply ages_refl.
  all: split; [done |]; right; rewrite E; cbn; lia.
Qed.

Lemma ages_exited p q c : ages p q → status p = Exited c → status q = Exited c.
Proof.
  intros [_ [E | L]] Hc; [congruence |].
  rewrite Hc in L. destruct (status q); cbn in L; lia.
Qed.

Lemma ages_running p q : ages p q → status q = Running → status p = Running.
Proof.
  intros [_ [E | L]] Hr; [congruence |].
  rewrite Hr in L. cbn in L. lia.
Qed.

Lemma returncode_reap_None p : returncode_of (reap p) = None ↔ status p = Running.
Proof. unfold returncode_of, reap. destruct (status p) eqn:E; cbn; rewrite ?E; naive_solver. Qed.

Lemma returncode_reap_Some p c :
  returncode_of (reap p) = Some c → status (reap p) = Exited c.
Proof. unfold returncode_of. destruct (status (reap p)); naive_solver. Qed.

Lemma deliver_sigterm_running ign p :
  status (deliver_sigterm ign p) = Running →
  status p = Running ∧ hd ""%string (argv p) ∈ ign.
Proof.
  unfold deliver_sigterm. destruct (status p) eqn:E; try congruence.
  case_bool_decide; cbn; [done | congruence].
Qed.

Lemma advances_refl t : advances t t.
Proof. unfold advances. reflexivity. Qed.

Lemma advances_trans t1 t2 t3 : advances t1 t2 → advances t2 t3 → advances t1 t3.
Proof. unfold advances. intros H1 H2. by etrans. Qed.

Lemma advances_length t t' : advances t t' → length t' = length t.
Proof. intros H. symmetry. by eapply Forall2_length. Qed.

Lemma advances_lookup t t' i p :
  advances t t' → t !! i = Some p → ∃ p', t' !! i = Some p' ∧ ages p p'.
Proof. intros H Hp. by eapply Forall2_lookup_l. Qed.

Lemma advances_lookup_r t t' i p' :
  advances t t' → t' !! i = Some p' → ∃ p, t !! i = Some p ∧ ages p p'.
Proof. intros H Hp. by eapply Forall2_lookup_r. Qed.

Lemma advances_alter (f : process → process) t i :
  (∀ p, ages p (f p)) → advances t (alter f i t).
Proof.
  intros Hf. apply Forall2_alter_r; [apply advances_refl |].
  intros p q Hp Hq Hpq. etrans; [exact Hpq | apply Hf].
Qed.

End lifecycle.

(** ** Library calls, one at a time *)

Lemma after_nil (s : state) : after s (procs s) [] = s.
Proof. destruct s. unfold after. cbn. by rewrite app_nil_r. Qed.

Lemma after_after (s : state) t evs t' evs' :
  after (after s t evs) t' evs' = after s t' (evs ++ evs').
Proof. unfold after. cbn. by rewrite app_assoc. Qed.

Lemma events_since_after (s : state) t evs : events_since s (after s t evs) = evs.
Proof. unfold events_since, after. cbn. apply drop_app_length. Qed.

Lemma bind_ok {A B : Type} (m : py A) (k : A → py B) s s' a :
  m s = (s', Ok a) → (m ≫= k) s = k a s'.
Proof. intros E. rewrite py_bind_run, E. reflexivity. Qed.

Lemma bind_block {A B : Type} (m : py A) (k : A → py B) s s' :
  m s = (s', Block) → (m ≫= k) s = (s', Block).
Proof. intros E. rewrite py_bind_run, E. reflexivity. Qed.

Lemma bind_getattr {B : Type} name v (k : pyval → py B) s :
  self s !! name = Some v → (getattr name ≫= k) s = k v s.
Proof. intros E. apply bind_ok. unfold getattr. by rewrite E. Qed.

Lemma poll_spec s pid p :
  procs s !! pid = Some p →
  poll (VPopen pid) s = (after s (procs s) [EPoll pid], Ok (returncode_of p)).
Proof. intros E. unfold poll. rewrite E. reflexivity. Qed.

Lemma heeded_advances ign t t' pid :
  advances t t' → heeded ign t pid → heeded ign t' pid.
Proof.
  intros Ha Hh p' Hp' Hrun.
  destruct (advances_lookup_r _ _ _ _ Ha Hp') as (p & Hp & Hage).
  rewrite (proj1 Hage). apply (Hh p Hp). by eapply ages_running.
Qed.

Lemma exited_advances t t' pid : advances t t' → exited t pid → exited t' pid.
Proof.
  intros Ha (p & c & Hp & Hc).
  destruct (advances_lookup _ _ _ _ Ha Hp) as (p' & Hp' & Hage).
  exists p', c. split; [done |]. by eapply ages_exited.
Qed.

Lemma terminate_spec s pid :
  pid < length (procs s) →
  ∃ t', terminate (VPopen pid) s = (after s t' [ETerminate pid], Ok tt)
        ∧ advances (procs s) t'
        ∧ (∀ j, j ≠ pid → t' !! j = procs s !! j)
        ∧ heeded (deaf s) t' pid.
Proof.
  intros Hlt. destruct (lookup_lt_is_Some_2 _ _ Hlt) as [p Hp].
  exists (alter (deliver_sigterm (deaf s)) pid (procs s)). repeat split.
  - unfold terminate. rewrite Hp. reflexivity.
  - apply advances_alter, ages_deliver_sigterm.
  - intros j Hj. by apply list_lookup_alter_ne.
  - intros q Hq Hrun. rewrite list_lookup_alter in Hq.
    case_decide; [| done]. rewrite Hp in Hq. cbn in Hq.
    injection Hq as <-. apply deliver_sigterm_running in Hrun as [_ Hdeaf].
    unfold deliver_sigterm. destruct (status p); [| done | done].
    by case_bool_decide.
Qed.

Lemma wait_spec s pid :
  pid < length (procs s) →
  (wait (VPopen pid) s = (after s (procs s) [EWait pid], Block)
   ∧ ∃ p, procs s !! pid = Some p ∧ status p = Running)
  ∨ (∃ t' c, wait (VPopen pid) s = (after s t' [EWait pid], Ok c)
             ∧ advances (procs s) t'
             ∧ (∀ j, j ≠ pid → t' !! j = procs s !! j)
             ∧ exited t' pid).
Proof.
  intros Hlt. destruct (lookup_lt_is_Some_2 _ _ Hlt) as [p Hp].
  destruct (returncode_of (reap p)) as [c |] eqn:Hrc.
  - right. exists (alter reap pid (procs s)), c. repeat split.
    + unfold wait. rewrite Hp, Hrc. reflexivity.
    + apply advances_alter, ages_reap.
    + intros j Hj. by apply list_lookup_alter_ne.
    + exists (reap p), c. split; [| by apply returncode_reap_Some].
      rewrite list_lookup_alter. case_decide; [| done]. by rewrite Hp.
  - left. split.
    + unfold wait. rewrite Hp, Hrc. reflexivity.
    + exists p. split; [done |]. by apply returncode_reap_None.
Qed.

(** ** Closing *)

Lemma close_unfold : RopodEnv.close = (RopodEnv._close_sim_client;; teardown).
Proof. reflexivity. Qed.

Lemma stubborn_after s t evs pid p :
  t !! pid = Some p → status p = Running → heeded (deaf s) t pid →
  stubborn (after s t evs) pid.
Proof. intros Hp Hrun Hh. exists p. cbn. split_and!; [done | done | by apply Hh]. Qed.

(** The simulator and the broker: both are sent SIGTERM, then the simulator
    is waited for, then the broker.  A wait that does not return is a wait
    for a process that ignores the signal. *)
Lemma teardown_spec s ros sim :
  self s !! "roscore_process" = Some (VPopen ros) →
  self s !! "sim_process" = Some (VPopen sim) →
  ros < length (procs s) → sim < length (procs s) →
  ∃ t' evs r,
    teardown s = (after s t' evs, r)
    ∧ advances (procs s) t'
    ∧ (∀ j, j ≠ sim → j ≠ ros → t' !! j = procs s !! j)
    ∧ ((r = Ok tt ∧ evs = teardown_plan ros sim ∧ exited t' sim ∧ exited t' ros)
       ∨ (r = Block ∧ evs = [ETerminate sim; ETerminate ros; EWait sim]
          ∧ stubborn (after s t' evs) sim)
       ∨ (r = Block ∧ evs = teardown_plan ros sim
          ∧ stubborn (after s t' evs) ros ∧ exited t' sim)).
Proof.
  intros Hros Hsim Lros Lsim. unfold teardown.
  (* self.sim_process.terminate() *)
  rewrite (bind_getattr _ _ _ _ Hsim).
  destruct (terminate_spec s sim Lsim) as (t1 & E1 & A1 & F1 & H1).
  rewrite (bind_ok _ _ _ _ _ E1).
  (* self.roscore_process.terminate() *)
  rewrite (bind_getattr "roscore_process" (VPopen ros)) by exact Hros.
  assert (L1 : ros < length (procs (after s t1 [ETerminate sim])))
    by (cbn; by rewrite (advances_length _ _ A1)).
  destruct (terminate_spec _ ros L1) as (t2 & E2 & A2 & F2 & H2).
  rewrite (bind_ok _ _ _ _ _ E2), after_after. cbn in A2, F2, H2.
  assert (H1' : heeded (deaf s) t2 sim) by (by eapply heeded_advances).
  (* self.sim_process.wait() *)
  rewrite (bind_getattr "sim_process" (VPopen sim)) by exact Hsim.
  set (s2 := after s t2 _).
  assert (L2 : sim < length (procs s2))
    by (cbn; by rewrite (advances_length _ _ A2), (advances_length _ _ A1)).
  destruct (wait_spec s2 sim L2) as [[E3 (p & Hp & Hrun)] | (t3 & c3 & E3 & A3 & F3 & X3)].
  { rewrite (bind_block _ _ _ _ E3). subst s2. rewrite after_after.
    exists t2, [ETerminate sim; ETerminate ros; EWait sim], Block.
    split_and!; [done | by eapply advances_trans | |].
    - intros j Hjs Hjr. rewrite F2, F1 by done. done.
    - right. left. split_and!; [done | done |]. by eapply stubborn_after. }
  rewrite (bind_ok _ _ _ _ _ E3). subst s2. rewrite after_after.
  cbn in A3, F3.
  assert (H2' : heeded (deaf s) t3 ros) by (by eapply heeded_advances).
  (* self.roscore_process.wait() *)
  rewrite (bind_getattr "roscore_process" (VPopen ros)) by exact Hros.
  set (s3 := after s t3 _).
  assert (L3 : ros < length (procs s3)).
  { cbn. by rewrite (advances_length _ _ A3), (advances_length _ _ A2),
      (advances_length _ _ A1). }
  destruct (wait_spec s3 ros L3) as [[E4 (p & Hp & Hrun)] | (t4 & c4 & E4 & A4 & F4 & X4)].
  { rewrite (bind_block _ _ _ _ E4). subst s3. rewrite after_after.
    exists t3, (teardown_plan ros sim), Block.
    split_and!; [done | | |].
    - eapply advances_trans; [| exact A3]. by eapply advances_trans.
    - intros j Hjs Hjr. rewrite F3, F2, F1 by done. done.
    - right. right. split_and!; [done | done | | done]. by eapply stubborn_after. }
  rewrite (bind_ok _ _ _ _ _ E4). subst s3. rewrite after_after.
  cbn in A4, F4.
  exists t4, (teardown_plan ros sim), (Ok tt).
  split_and!; [done | | |].
  - eapply advances_trans; [| exact A4]. eapply advances_trans; [| exact A3].
    by eapply advances_trans.
  - intros j Hjs Hjr. rewrite F4, F3, F2, F1 by done. done.
  - left. split_and!; [done | done | | done]. by eapply exited_advances.
Qed.

(** The visualization client: nothing to do without one, a poll for one
    that has exited, and poll, terminate, wait for one that has not. *)
Lemma close_sim_client_spec s vis :
  self s !! "sim_vis_process" = Some (vis_value vis) →
  (∀ v, vis = Some v → v < length (procs s)) →
  ∃ t' evs r,
    RopodEnv._close_sim_client s = (after s t' evs, r)
    ∧ advances (procs s) t'
    ∧ (∀ j, vis ≠ Some j → t' !! j = procs s !! j)
    ∧ ((r = Ok tt ∧ evs = client_plan s vis)
       ∨ (r = Block ∧ evs = client_plan s vis
          ∧ ∃ v, vis = Some v ∧ evs = [EPoll v; ETerminate v; EWait v]
                 ∧ stubborn (after s t' evs) v)).
Proof.
  intros Hvis Lvis. unfold RopodEnv._close_sim_client.
  rewrite (bind_getattr _ _ _ _ Hvis).
  destruct vis as [v |]; cbn [vis_value from_option is_None negb].
  2:{ (* render was never called *)
      exists (procs s), [], (Ok tt). rewrite after_nil.
      split_and!; [done | apply advances_refl | done | by left]. }
  specialize (Lvis v eq_refl).
  destruct (lookup_lt_is_Some_2 _ _ Lvis) as [p Hp].
  rewrite py_bind_run, (bind_getattr "sim_vis_process" (VPopen v)) by exact Hvis.
  rewrite (bind_ok _ _ _ _ _ (poll_spec s v p Hp)).
  unfold client_plan, exit_status. rewrite Hp. cbn [mbind option_bind].
  destruct (returncode_of p) as [c |] eqn:Hrc.
  { (* the client has exited *)
    exists (procs s), [EPoll v], (Ok tt).
    split_and!; [done | apply advances_refl | done | by left]. }
  (* the client is still there: terminate it and wait for it *)
  unfold mret at 1, py_ret at 1.
  rewrite bool_decide_eq_true_2 by done.
  rewrite (bind_getattr "sim_vis_process" (VPopen v)) by exact Hvis.
  set (s1 := after s (procs s) [EPoll v]).
  destruct (terminate_spec s1 v Lvis) as (t1 & E1 & A1 & F1 & H1).
  rewrite (bind_ok _ _ _ _ _ E1). subst s1. rewrite after_after.
  cbn in A1, F1, H1.
  rewrite (bind_getattr "sim_vis_process" (VPopen v)) by exact Hvis.
  set (s2 := after s t1 _).
  assert (L2 : v < length (procs s2)) by (cbn; by rewrite (advances_length _ _ A1)).
  destruct (wait_spec s2 v L2) as [[E3 (q & Hq & Hrun)] | (t3 & c3 & E3 & A3 & F3 & X3)].
  - rewrite (bind_block _ _ _ _ E3). subst s2. rewrite after_after.
    exists t1, [EPoll v; ETerminate v; EWait v], Block.
    split_and!; [done | done | |].
    + intros j Hj. apply F1. congruence.
    + right. split_and!; [done | done |]. exists v.
      split_and!; [done | done |]. by eapply stubborn_after.
  - rewrite (bind_ok _ _ _ _ _ E3). subst s2. rewrite after_after.
    cbn in A3, F3.
    exists t3, [EPoll v; ETerminate v; EWait v], (Ok tt).
    split_and!; [done | by eapply advances_trans | | by left].
    intros j Hj. rewrite F3, F1 by congruence. done.
Qed.

Lemma returncode_Some_exited p c : returncode_of p = Some c → status p = Exited c.
Proof. unfold returncode_of. destruct (status p); naive_solver. Qed.

Lemma close_sim_client_exited s v s' :
  self s !! "sim_vis_process" = Some (VPopen v) →
  v < length (procs s) →
  RopodEnv._close_sim_client s = (s', Ok tt) →
  exited (procs s') v.
Proof.
  intros Hvis Lvis. unfold RopodEnv._close_sim_client.
  rewrite (bind_getattr _ _ _ _ Hvis). cbn [is_None negb].
  destruct (lookup_lt_is_Some_2 _ _ Lvis) as [p Hp].
  rewrite py_bind_run, (bind_getattr "sim_vis_process" (VPopen v)) by exact Hvis.
  rewrite (bind_ok _ _ _ _ _ (poll_spec s v p Hp)).
  destruct (returncode_of p) as [c |] eqn:Hrc.
  { intros [= <-]. exists p, c. split; [done |]. by apply returncode_Some_exited. }
  unfold mret at 1, py_ret at 1. rewrite bool_decide_eq_true_2 by done.
  rewrite (bind_getattr "sim_vis_process" (VPopen v)) by exact Hvis.
  set (s1 := after s (procs s) [EPoll v]).
  destruct (terminate_spec s1 v Lvis) as (t1 & E1 & A1 & F1 & H1).
  rewrite (bind_ok _ _ _ _ _ E1).
  rewrite (bind_getattr "sim_vis_process" (VPopen v)) by exact Hvis.
  set (s2 := after s1 t1 _).
  assert (L2 : v < length (procs s2)) by (cbn; by rewrite (advances_length _ _ A1)).
  destruct (wait_spec s2 v L2) as [[E3 _] | (t3 & c3 & E3 & A3 & F3 & X3)].
  - rewrite (bind_block _ _ _ _ E3). discriminate.
  - rewrite (bind_ok _ _ _ _ _ E3). by intros [= <-].
Qed.

Lemma stubborn_before s t evs pid :
  advances (procs s) t → stubborn (after s t evs) pid → stubborn s pid.
Proof.
  intros Ha (p' & Hp' & Hrun & Hdeaf). cbn in Hp', Hdeaf.
  destruct (advances_lookup_r _ _ _ _ Ha Hp') as (p & Hp & Hage).
  exists p. split_and!; [done | by eapply ages_running |].
  by rewrite <- (proj1 Hage).
Qed.

Lemma exited_exit_status s pid : exited (procs s) pid → is_Some (exit_status s pid).
Proof.
  intros (p & c & Hp & Hc). exists c. unfold exit_status. rewrite Hp. cbn.
  unfold returncode_of. by rewrite Hc.
Qed.

(** The whole of [close]: the calls follow [close_plan]; the method returns
    once every wait has returned, and otherwise stops in a wait for a process
    that keeps running. *)
Lemma close_spec s ros sim vis :
  instance s ros sim vis →
  ∃ t' evs r,
    RopodEnv.close s = (after s t' evs, r)
    ∧ advances (procs s) t'
    ∧ (∀ j, j ≠ sim → j ≠ ros → vis ≠ Some j → t' !! j = procs s !! j)
    ∧ ((r = Ok tt ∧ evs = close_plan s ros sim vis
        ∧ exited t' sim ∧ exited t' ros)
       ∨ (r = Block
          ∧ ∃ pid rest,
              close_plan s ros sim vis = evs ++ rest
              ∧ last evs = Some (EWait pid)
              ∧ (vis = Some pid ∨ pid = sim ∨ pid = ros)
              ∧ stubborn (after s t' evs) pid)).
Proof.
  intros [Hros Hsim Hvis Lros Lsim Lvis]. rewrite close_unfold.
  destruct (close_sim_client_spec s vis Hvis Lvis)
    as (t1 & evs1 & r1 & E1 & A1 & F1 & [[-> ->] | (-> & Hev & v & -> & Hevs & Hst)]).
  2:{ (* blocked on the visualization client *)
      rewrite (bind_block _ _ _ _ E1).
      exists t1, evs1, Block. split_and!; [done | done | |].
      - intros j _ _ Hj. by apply F1.
      - right. split; [done |]. exists v, (teardown_plan ros sim).
        split_and!; [by rewrite Hev | by rewrite Hevs | by left | done]. }
  rewrite (bind_ok _ _ _ _ _ E1).
  set (s1 := after s t1 (client_plan s vis)).
  assert (Len1 : length (procs s1) = length (procs s))
    by (cbn; by apply advances_length).
  destruct (teardown_spec s1 ros sim) as (t2 & evs2 & r2 & E2 & A2 & F2 & Hcases);
    [exact Hros | exact Hsim | by rewrite Len1 | by rewrite Len1 |].
  rewrite E2. subst s1. rewrite after_after in *. cbn in A2, F2.
  exists t2, (client_plan s vis ++ evs2), r2.
  split_and!; [done | by eapply advances_trans | |].
  { intros j Hjs Hjr Hjv. rewrite F2, F1 by done. done. }
  destruct Hcases as [(-> & -> & X1 & X2) | [(-> & -> & Hst) | (-> & -> & Hst & _)]].
  - left. done.
  - right. split; [done |]. exists sim, [EWait ros].
    split_and!; [| | by right; left | done].
    + unfold close_plan, teardown_plan. by rewrite <- app_assoc.
    + by rewrite last_app.
  - right. split; [done |]. exists ros, [].
    split_and!; [| | by right; right | done].
    + by rewrite app_nil_r.
    + by rewrite last_app.
Qed.

(** C5. Closing an instance that never rendered.  [close] does not raise;
    it leaves the instance dictionary (and with it the [None] visualization
    handle) as it was; every process other than the simulator and the broker
    keeps its table entry; and the calls it makes are terminate on the
    simulator, terminate on the broker, wait on the simulator, wait on the
    broker, the sequence being cut short only by a wait on a process that
    was running when [close] was called and ignores SIGTERM. *)
Theorem close_without_render (s : state) (ros sim : nat) :
  instance s ros sim None →
  let r := RopodEnv.close s in
  (∀ e, r.2 ≠ Raise e)
  ∧ self r.1 = self s
  ∧ self r.1 !! "sim_vis_process" = Some VNone
  ∧ length (procs r.1) = length (procs s)
  ∧ (∀ pid, pid ≠ sim → pid ≠ ros → procs r.1 !! pid = procs s !! pid)
  ∧ ((r.2 = Ok tt
      ∧ events_since s r.1 = [ETerminate sim; ETerminate ros; EWait sim; EWait ros])
     ∨ (r.2 = Block
        ∧ events_since s r.1 = [ETerminate sim; ETerminate ros; EWait sim]
        ∧ stubborn s sim ∧ stubborn r.1 sim)
     ∨ (r.2 = Block
        ∧ events_since s r.1 = [ETerminate sim; ETerminate ros; EWait sim; EWait ros]
        ∧ stubborn s ros ∧ stubborn r.1 ros)).
Proof.
  intros Hinst r. subst r.
  pose proof Hinst as [Hros Hsim Hvis Lros Lsim Lvis].
  rewrite close_unfold.
  destruct (close_sim_client_spec s None Hvis Lvis)
    as (t1 & evs1 & r1 & E1 & A1 & F1 & [[-> ->] | (_ & _ & v & ? & _)]);
    [| discriminate].
  cbn [client_plan] in E1.
  assert (Ht1 : t1 = procs s).
  { apply list_eq. intros j. by apply F1. }
  subst t1. rewrite after_nil in E1. rewrite (bind_ok _ _ _ _ _ E1).
  destruct (teardown_spec s ros sim Hros Hsim Lros Lsim)
    as (t2 & evs2 & r2 & E2 & A2 & F2 & Hcases).
  rewrite E2. cbn [fst snd]. rewrite events_since_after.
  split_and!.
  - destruct Hcases as [(-> & _) | [(-> & _) | (-> & _)]]; done.
  - done.
  - exact Hvis.
  - cbn. by apply advances_length.
  - intros pid Hs Hr. cbn. by apply F2.
  - destruct Hcases as [(-> & -> & _) | [(-> & -> & Hst) | (-> & -> & Hst & _)]].
    + by left.
    + right. left. split_and!; [done | done | | done].
      by eapply stubborn_before.
    + right. right. split_and!; [done | done | | done].
      by eapply stubborn_before.
Qed.

(** C6. After [close] has returned, the simulator and the broker have both
    exited: [poll] on either handle reports a return code.  And [close] does
    return unless one of the processes it waits for ignores SIGTERM. *)
Theorem close_postcondition (s : state) (ros sim : nat) (vis : option nat) :
  instance s ros sim vis →
  (∀ s', RopodEnv.close s = (s', Ok tt) →
         is_Some (exit_status s' sim) ∧ is_Some (exit_status s' ros))
  ∧ (¬ stubborn s sim → ¬ stubborn s ros → (∀ v, vis = Some v → ¬ stubborn s v) →
     (RopodEnv.close s).2 = Ok tt).
Proof.
  intros Hinst.
  destruct (close_spec s ros sim vis Hinst)
    as (t' & evs & r & E & A & F & Hcases).
  split.
  - intros s' Hret. rewrite E in Hret. injection Hret as <- ->.
    destruct Hcases as [(_ & _ & X1 & X2) | (? & _)]; [| discriminate].
    split; by apply exited_exit_status.
  - intros Nsim Nros Nvis. rewrite E. cbn.
    destruct Hcases as [(-> & _) | (-> & pid & rest & _ & _ & Hpid & Hst)]; [done |].
    apply (stubborn_before _ _ _ _ A) in Hst.
    destruct Hpid as [-> | [-> | ->]]; [| done | done].
    by destruct (Nvis pid).
Qed.

(** C7. The order of the teardown.  [close] first runs [_close_sim_client]:
    the visualization client is polled and, if it has not exited, terminated
    and waited for; a wait that does not return stops [close] there, before
    any call on the simulator or the broker.  When the client part has
    returned, the client (if any) has exited, and only then are the
    simulator and the broker both sent SIGTERM and then waited for, the
    simulator first.  When [close] returns, the simulator, the broker and the
    client have all exited; when it does not, it has stopped in one of the
    waits, on a process that ignores SIGTERM and is still running. *)
Theorem close_teardown_order (s : state) (ros sim : nat) (vis : option nat) :
  instance s ros sim vis →
  let r := RopodEnv.close s in
  ((r.2 = Ok tt ∧ events_since s r.1 = close_plan s ros sim vis
    ∧ exited (procs r.1) sim ∧ exited (procs r.1) ros
    ∧ (∀ v, vis = Some v → exited (procs r.1) v))
   ∨ (r.2 = Block
      ∧ ∃ pid rest,
          close_plan s ros sim vis = events_since s r.1 ++ rest
          ∧ last (events_since s r.1) = Some (EWait pid)
          ∧ stubborn s pid ∧ stubborn r.1 pid))
  ∧ ∃ s1 r1,
      RopodEnv._close_sim_client s = (s1, r1)
      ∧ events_since s s1 = client_plan s vis
      ∧ ((r1 = Block ∧ r = (s1, Block))
         ∨ (r1 = Ok tt
            ∧ (∀ v, vis = Some v → exited (procs s1) v)
            ∧ r = teardown s1
            ∧ ((r.2 = Ok tt
                ∧ events_since s1 r.1 = teardown_plan ros sim
                ∧ exited (procs r.1) sim ∧ exited (procs r.1) ros)
               ∨ (r.2 = Block
                  ∧ events_since s1 r.1 = [ETerminate sim; ETerminate ros; EWait sim]
                  ∧ stubborn r.1 sim)
               ∨ (r.2 = Block
                  ∧ events_since s1 r.1 = teardown_plan ros sim
                  ∧ exited (procs r.1) sim
                  ∧ stubborn r.1 ros)))).
Proof.
  intros Hinst r. subst r.
  pose proof Hinst as [Hros Hsim Hvis Lros Lsim Lvis].
  destruct (close_sim_client_spec s vis Hvis Lvis)
    as (t1 & evs1 & r1 & E1 & A1 & F1 & [[-> ->] | (-> & Hev & v & -> & Hevs & Hst)]).
  2:{ (* the wait for the client does not return *)
      assert (Hclose : RopodEnv.close s = (after s t1 evs1, Block))
        by (rewrite close_unfold; by apply bind_block).
      rewrite Hclose. cbn [fst snd]. rewrite events_since_after. split.
      - right. split; [done |]. exists v, (teardown_plan ros sim).
        split_and!; [by rewrite Hev | by rewrite Hevs
                     | by eapply stubborn_before | done].
      - exists (after s t1 evs1), Block.
        rewrite events_since_after. split_and!; [done | done | by left]. }
  (* the client part has returned *)
  set (s1 := after s t1 (client_plan s vis)) in *.
  assert (Xvis1 : ∀ v, vis = Some v → exited (procs s1) v).
  { intros v ->. by eapply (close_sim_client_exited s v s1 Hvis); [apply Lvis |]. }
  assert (Len1 : length (procs s1) = length (procs s))
    by (cbn; by apply advances_length).
  destruct (teardown_spec s1 ros sim) as (t2 & evs2 & r2 & E2 & A2 & F2 & Hcases);
    [exact Hros | exact Hsim | by rewrite Len1 | by rewrite Len1 |].
  cbn [s1 after procs] in A2.
  assert (Hclose : RopodEnv.close s = (after s1 t2 evs2, r2))
    by (rewrite close_unfold, (bind_ok _ _ _ _ _ E1); exact E2).
  assert (Hsince : events_since s (after s1 t2 evs2) = client_plan s vis ++ evs2).
  { subst s1. by rewrite after_after, events_since_after. }
  assert (Xvis2 : ∀ v, vis = Some v → exited t2 v).
  { intros v Hv. apply (exited_advances _ _ _ A2). by apply Xvis1. }
  rewrite Hclose. cbn [fst snd]. rewrite Hsince. split.
  - destruct Hcases as [(-> & -> & X1 & X2) | [(-> & -> & Hst) | (-> & -> & Hst & _)]].
    + left. by split_and!.
    + right. split; [done |]. exists sim, [EWait ros].
      assert (Hst0 : stubborn (after s t2 (client_plan s vis ++ [ETerminate sim; ETerminate ros; EWait sim])) sim)
        by (subst s1; by rewrite after_after in Hst).
      split_and!; [| by rewrite last_app | | done].
      * unfold close_plan, teardown_plan. by rewrite <- app_assoc.
      * eapply stubborn_before; [| exact Hst0]. by eapply advances_trans.
    + right. split; [done |]. exists ros, [].
      assert (Hst0 : stubborn (after s t2 (client_plan s vis ++ teardown_plan ros sim)) ros)
        by (subst s1; by rewrite after_after in Hst).
      split_and!; [by rewrite app_nil_r | by rewrite last_app | | done].
      eapply stubborn_before; [| exact Hst0]. by eapply advances_trans.
  - exists s1, (Ok tt). rewrite events_since_after.
    split_and!; [done | by subst s1; rewrite events_since_after |].
    right. split_and!; [done | done | by rewrite E2 |].
    destruct Hcases as [(-> & -> & X1 & X2) | [(-> & -> & Hst) | (-> & -> & Hst & X1)]].
    + left. done.
    + right. left. done.
    + right. right. done.
Qed.

(** ** The abstract methods *)

(** C3. On the base class [step] raises [NotImplementedError] whatever the
    action, and so does [reset]; the machine, and with it the instance
    dictionary, is the one before the call. *)
Theorem step_reset_not_implemented (s : state) (action : pyval) :
  RopodEnv.step action s = (s, Raise NotImplementedError)
  ∧ RopodEnv.reset s = (s, Raise NotImplementedError)
  ∧ self (RopodEnv.step action s).1 = self s
  ∧ self (RopodEnv.reset s).1 = self s.
Proof. repeat split. Qed.

(** ** Rendering *)

Lemma render_first s mode :
  self s !! "sim_vis_process" = Some VNone →
  RopodEnv.render mode s
  = (rendered s [ESpawn ["gzclient"] (length (procs s))], Ok tt).
Proof.
  intros Hvis. unfold RopodEnv.render.
  rewrite (bind_getattr _ _ _ _ Hvis). reflexivity.
Qed.

Lemma render_alive s mode pid p :
  self s !! "sim_vis_process" = Some (VPopen pid) →
  procs s !! pid = Some p → returncode_of p = None →
  RopodEnv.render mode s = (after s (procs s) [EPoll pid], Ok tt).
Proof.
  intros Hvis Hp Hrc. unfold RopodEnv.render.
  rewrite (bind_getattr _ _ _ _ Hvis). cbn [is_None].
  rewrite py_bind_run, (bind_getattr _ _ _ _ Hvis).
  rewrite (bind_ok _ _ _ _ _ (poll_spec s pid p Hp)), Hrc.
  reflexivity.
Qed.

Lemma render_dead s mode pid p c :
  self s !! "sim_vis_process" = Some (VPopen pid) →
  procs s !! pid = Some p → returncode_of p = Some c →
  RopodEnv.render mode s
  = (rendered s [EPoll pid; ESpawn ["gzclient"] (length (procs s))], Ok tt).
Proof.
  intros Hvis Hp Hrc. unfold RopodEnv.render.
  rewrite (bind_getattr _ _ _ _ Hvis). cbn [is_None].
  rewrite py_bind_run, (bind_getattr _ _ _ _ Hvis).
  rewrite (bind_ok _ _ _ _ _ (poll_spec s pid p Hp)), Hrc.
  unfold mret at 1, py_ret at 1.
  rewrite bool_decide_eq_true_2 by done.
  unfold rendered, after, Popen, setattr, mbind, py_bind. py_simpl.
  f_equal. apply state_ext; py_simpl; try reflexivity.
  by rewrite <- app_assoc.
Qed.

(** The environment alone changes neither the instance dictionary nor the
    log, and it leaves alone every process it spares. *)
Lemma run_spares n env s :
  Forall (spares n) env →
  self (run env s) = self s
  ∧ log (run env s) = log s
  ∧ procs (run env s) !! n = procs s !! n.
Proof.
  intros Henv. revert s.
  induction Henv as [| a env Ha _ IH]; intros s; [done |].
  destruct a as [c | pid code]; [done |]. cbn [run].
  destruct (IH (process_exits pid code s)) as (-> & -> & ->).
  split_and!; [done | done |]. cbn. by apply list_lookup_alter_ne.
Qed.

Lemma run_env_app n env h s :
  Forall (spares n) env → run (env ++ h) s = run h (run env s).
Proof.
  intros Henv. revert s.
  induction Henv as [| a env Ha _ IH]; intros s; [done |].
  destruct a as [c | pid code]; [done |]. cbn [run app]. apply IH.
Qed.

(** C4. [render] is idempotent while the client lives.  If the
    visualization handle is a process for which [poll] reports [None], then
    [render] only polls it: no process is spawned, the process table and the
    instance dictionary (hence the handle) are unchanged.  Consequently two
    calls of [render] on an instance that had no client, with the
    environment in between sparing the client, spawn exactly one process,
    and that on the first call. *)
Theorem render_idempotent_while_alive
    (s : state) (pid : nat) (p : process) (mode : string) :
  self s !! "sim_vis_process" = Some (VPopen pid) →
  procs s !! pid = Some p →
  returncode_of p = None →
  RopodEnv.render mode s = (after s (procs s) [EPoll pid], Ok tt)
  ∧ filter is_spawn (events_since s (RopodEnv.render mode s).1) = []
  ∧ procs (RopodEnv.render mode s).1 = procs s
  ∧ self (RopodEnv.render mode s).1 = self s
  ∧ (∀ s0 mode1 mode2 env,
       self s0 !! "sim_vis_process" = Some VNone →
       Forall (spares (length (procs s0))) env →
       let first := run [Call (CRender mode1)] s0 in
       let second := run (Call (CRender mode1) :: env ++ [Call (CRender mode2)]) s0 in
       filter is_spawn (events_since s0 first)
         = [ESpawn ["gzclient"] (length (procs s0))]
       ∧ filter is_spawn (events_since s0 second)
         = [ESpawn ["gzclient"] (length (procs s0))]
       ∧ self second !! "sim_vis_process" = Some (VPopen (length (procs s0)))).
Proof.
  intros Hvis Hp Hrc.
  rewrite (render_alive s mode pid p Hvis Hp Hrc). cbn [fst snd].
  rewrite events_since_after.
  split_and!; [done | done | done | done |].
  intros s0 mode1 mode2 env Hnone Henv.
  set (first := run [Call (CRender mode1)] s0).
  set (second := run (Call (CRender mode1) :: env ++ [Call (CRender mode2)]) s0).
  assert (Hfirst : first = rendered s0 [ESpawn ["gzclient"] (length (procs s0))]).
  { subst first. cbn [run invoke].
    rewrite (bind_ok _ _ _ _ _ (render_first s0 mode1 Hnone)). reflexivity. }
  assert (Hsecond : second
            = after (run env first) (procs (run env first))
                    [EPoll (length (procs s0))]).
  { subst second. cbn [run invoke].
    rewrite (bind_ok _ _ _ _ _ (render_first s0 mode1 Hnone)).
    cbn [mret py_ret]. rewrite <- Hfirst.
    rewrite (run_env_app _ _ _ _ Henv). cbn [run invoke].
    destruct (run_spares _ _ first Henv) as (Hself & _ & Hprocs).
    rewrite (bind_ok _ _ _ _ _
               (render_alive (run env first) mode2 (length (procs s0)) gzclient_proc
                  ltac:(rewrite Hself, Hfirst; apply lookup_insert_eq)
                  ltac:(rewrite Hprocs, Hfirst; apply list_lookup_middle; done)
                  eq_refl)).
    reflexivity. }
  destruct (run_spares _ _ first Henv) as (Hself & Hlog & _).
  split_and!.
  - rewrite Hfirst. unfold events_since, rendered. cbn [log].
    by rewrite drop_app_length.
  - rewrite Hsecond. unfold events_since, after. cbn [log].
    rewrite Hlog, Hfirst. unfold rendered. cbn [log].
    rewrite <- app_assoc. by rewrite drop_app_length.
  - rewrite Hsecond. cbn [self after]. rewrite Hself, Hfirst.
    apply lookup_insert_eq.
Qed.

(** C9. [render] restarts a dead client.  If the visualization handle is a
    process for which [poll] reports a return code, then [render] spawns a
    new [gzclient] and stores its handle, which differs from the old one. *)
Theorem render_restarts_dead_client
    (s : state) (pid : nat) (p : process) (c : Z) (mode : string) :
  self s !! "sim_vis_process" = Some (VPopen pid) →
  procs s !! pid = Some p →
  returncode_of p = Some c →
  let r := RopodEnv.render mode s in
  r = (rendered s [EPoll pid; ESpawn ["gzclient"] (length (procs s))], Ok tt)
  ∧ filter is_spawn (events_since s r.1) = [ESpawn ["gzclient"] (length (procs s))]
  ∧ procs r.1 = procs s ++ [gzclient_proc]
  ∧ self r.1 !! "sim_vis_process" = Some (VPopen (length (procs s)))
  ∧ length (procs s) ≠ pid
  ∧ exit_status r.1 (length (procs s)) = None.
Proof.
  intros Hvis Hp Hrc r. subst r.
  rewrite (render_dead s mode pid p c Hvis Hp Hrc). cbn [fst snd].
  split_and!.
  - done.
  - unfold events_since, rendered. cbn [log]. by rewrite drop_app_length.
  - done.
  - cbn [rendered self]. apply lookup_insert_eq.
  - apply lookup_lt_Some in Hp. lia.
  - unfold exit_status, rendered. cbn [procs].
    by rewrite list_lookup_middle.
Qed.

(** C10. The [mode] argument of [render] has no influence: from the same
    machine, two calls with different modes make the same library calls,
    give the same outcome and leave the same machine behind. *)
Theorem render_ignores_mode (s : state) (mode1 mode2 : string) :
  RopodEnv.render mode1 s = RopodEnv.render mode2 s
  ∧ events_since s (RopodEnv.render mode1 s).1
    = events_since s (RopodEnv.render mode2 s).1.
Proof. split; reflexivity. Qed.

(** ** The visualization handle between construction and rendering *)

Section keeps_self.
Context {A B : Type}.

Lemma keeps_self_bind (m : py A) (k : A → py B) :
  keeps_self m → (∀ a, keeps_self (k a)) → keeps_self (m ≫= k).
Proof.
  intros Hm Hk s. rewrite py_bind_run. specialize (Hm s).
  destruct (m s) as [s' [a | e | ]]; cbn in *; [| done | done].
  by rewrite Hk.
Qed.

Lemma keeps_self_ret (a : A) : keeps_self (mret a : py A).
Proof. done. Qed.

Lemma keeps_self_raise (e : exn) : keeps_self (raise e : py A).
Proof. done. Qed.
End keeps_self.

Lemma keeps_self_getattr name : keeps_self (getattr name).
Proof. intros s. unfold getattr. by destruct (self s !! name). Qed.

Lemma keeps_self_poll v : keeps_self (poll v).
Proof. intros s. unfold poll. destruct v; try done. by destruct (procs s !! pid). Qed.

Lemma keeps_self_terminate v : keeps_self (terminate v).
Proof.
  intros s. unfold terminate. destruct v; try done. by destruct (procs s !! pid).
Qed.

Lemma keeps_self_wait v : keeps_self (wait v).
Proof.
  intros s. unfold wait. destruct v; try done.
  destruct (procs s !! pid) as [p |]; [| done].
  by destruct (returncode_of (reap p)).
Qed.

Create HintDb keeps.

#[local] Hint Resolve keeps_self_getattr keeps_self_poll keeps_self_terminate
  keeps_self_wait : keeps.

Ltac keeps_self_tac :=
  repeat first
    [ apply keeps_self_bind; [| intros ?]
    | apply keeps_self_ret
    | apply keeps_self_raise
    | solve [auto with keeps]
    | match goal with |- keeps_self (if ?b then _ else _) => destruct b end ].

Lemma keeps_self_close_sim_client : keeps_self RopodEnv._close_sim_client.
Proof. unfold RopodEnv._close_sim_client. keeps_self_tac. Qed.

Lemma keeps_self_close : keeps_self RopodEnv.close.
Proof.
  unfold RopodEnv.close.
  apply keeps_self_bind; [apply keeps_self_close_sim_client | intros _].
  keeps_self_tac.
Qed.

Lemma keeps_self_invoke c : is_render c = false → keeps_self (invoke c).
Proof.
  destruct c; cbn; intros Hc; try done.
  apply keeps_self_bind; [apply keeps_self_close | intros _; apply keeps_self_ret].
Qed.

Lemma run_no_render h s : no_render h → self (run h s) = self s.
Proof.
  intros Hh. revert s.
  induction Hh as [| a h Ha _ IH]; intros s; [done |].
  destruct a as [c | pid code]; cbn [run].
  - pose proof (keeps_self_invoke c Ha s) as Hc.
    destruct (invoke c s) as [s' [v | e | ]]; cbn in Hc; by rewrite ?IH.
  - by rewrite IH.
Qed.

Lemma init_ok_inv s s' path port srv :
  RopodEnv.__init__ path port srv s = (s', Ok tt) →
  path ∈ files s ∧ srv ∈ services s.
Proof.
  intros Hinit.
  destruct (decide (path ∈ files s)) as [Hpath | Hpath].
  - destruct (decide (srv ∈ services s)) as [Hsrv | Hsrv]; [done |].
    by rewrite (init_blocks s path port srv Hpath Hsrv) in Hinit.
  - by rewrite (init_raises s path port srv Hpath) in Hinit.
Qed.

(** C8. A successful construction leaves the visualization handle [None],
    and no history of [step], [reset] and [close] calls and of process exits
    changes the instance dictionary, so the handle is still [None] when
    [render] is called for the first time; that call stores a process
    handle. *)
Theorem vis_handle_none_until_render
    (s s' : state) (path port srv : string) (h : list action) :
  RopodEnv.__init__ path port srv s = (s', Ok tt) →
  no_render h →
  self s' !! "sim_vis_process" = Some VNone
  ∧ self (run h s') = self s'
  ∧ self (run h s') !! "sim_vis_process" = Some VNone
  ∧ ∀ mode,
      self (RopodEnv.render mode (run h s')).1 !! "sim_vis_process"
      = Some (VPopen (length (procs (run h s')))).
Proof.
  intros Hinit Hh.
  destruct (init_ok_inv _ _ _ _ _ Hinit) as [Hpath Hsrv].
  rewrite (init_returns s path port srv Hpath Hsrv) in Hinit.
  injection Hinit as Hs'.
  assert (Hnone : self s' !! "sim_vis_process" = Some VNone).
  { rewrite <- Hs'. cbn [self]. unfold constructed_attrs. apply lookup_insert_eq. }
  pose proof (run_no_render h s' Hh) as Hrun.
  split_and!; [exact Hnone | exact Hrun | by rewrite Hrun |].
  intros mode. rewrite render_first by (by rewrite Hrun).
  cbn [fst rendered self]. apply lookup_insert_eq.
Qed.

(** ** The class invariant *)

Lemma init_instance s path port srv :
  path ∈ files s → srv ∈ services s →
  instance (RopodEnv.__init__ path port srv s).1
    (length (procs s)) (S (length (procs s))) None.
Proof.
  intros Hpath Hsrv. rewrite (init_returns s path port srv Hpath Hsrv).
  cbn [fst]. unfold constructed_attrs. split; cbn [self procs vis_value from_option].
  - rewrite !lookup_insert_ne by done. apply lookup_insert_eq.
  - rewrite !lookup_insert_ne by done. apply lookup_insert_eq.
  - apply lookup_insert_eq.
  - rewrite length_app. cbn. lia.
  - rewrite length_app. cbn. lia.
  - done.
Qed.

Lemma render_instance s ros sim vis mode :
  instance s ros sim vis →
  ∃ v, instance (RopodEnv.render mode s).1 ros sim (Some v).
Proof.
  intros [Hros Hsim Hvis Lros Lsim Lvis].
  assert (Hnew : instance (rendered s []) ros sim (Some (length (procs s)))).
  { split; cbn [self procs rendered vis_value from_option].
    - by rewrite lookup_insert_ne by done.
    - by rewrite lookup_insert_ne by done.
    - apply lookup_insert_eq.
    - rewrite length_app. lia.
    - rewrite length_app. lia.
    - intros v [= <-]. rewrite length_app. cbn. lia. }
  destruct vis as [v |].
  - specialize (Lvis v eq_refl).
    destruct (lookup_lt_is_Some_2 _ _ Lvis) as [p Hp].
    destruct (returncode_of p) as [c |] eqn:Hrc.
    + exists (length (procs s)). rewrite (render_dead s mode v p c Hvis Hp Hrc).
      by destruct Hnew.
    + exists v. rewrite (render_alive s mode v p Hvis Hp Hrc).
      split; cbn; try done. by intros ? [= <-].
  - exists (length (procs s)). rewrite (render_first s mode Hvis).
    by destruct Hnew.
Qed.

Lemma close_instance s ros sim vis :
  instance s ros sim vis → instance (RopodEnv.close s).1 ros sim vis.
Proof.
  intros Hinst.
  destruct (close_spec s ros sim vis Hinst) as (t' & evs & r & E & A & _).
  destruct Hinst as [Hros Hsim Hvis Lros Lsim Lvis].
  rewrite E. split; cbn [fst after self procs]; try done.
  all: rewrite (advances_length _ _ A); done.
Qed.

Lemma process_exits_instance s ros sim vis pid code :
  instance s ros sim vis → instance (process_exits pid code s) ros sim vis.
Proof.
  intros [Hros Hsim Hvis Lros Lsim Lvis].
  split; cbn [process_exits set_procs self procs]; try done.
  all: rewrite length_alter; done.
Qed.

(** Whatever the caller and the environment do after a successful
    construction, the invariant holds. *)
Lemma run_instance h s ros sim vis :
  instance s ros sim vis → ∃ vis', instance (run h s) ros sim vis'.
Proof.
  revert s vis. induction h as [| a h IH]; intros s vis Hinst; [by exists vis |].
  destruct a as [c | pid code]; cbn [run].
  - assert (∃ vis', instance (invoke c s).1 ros sim vis') as [vis' Hinst'].
    { destruct c; cbn [invoke]; [by exists vis | by exists vis | |].
      - destruct (render_instance s ros sim vis mode Hinst) as [v Hv].
        exists (Some v). rewrite py_bind_run.
        by destruct (RopodEnv.render mode s) as [s' [[] | e | ]].
      - exists vis. pose proof (close_instance s ros sim vis Hinst) as Hc.
        rewrite py_bind_run.
        by destruct (RopodEnv.close s) as [s' [[] | e | ]]. }
    destruct (invoke c s) as [s' [v | e | ]]; cbn [fst] in Hinst'; eauto.
  - eapply IH. by apply process_exits_instance.
Qed.

(** ** The laboratory *)

Lemma lab_env_instance : instance lab_env 0 1 None.
Proof.
  split.
  - vm_compute. reflexivity.
  - vm_compute. reflexivity.
  - vm_compute. reflexivity.
  - vm_compute. lia.
  - vm_compute. lia.
  - intros v Hv. discriminate Hv.
Qed.

Lemma lab_rendered_instance : instance lab_rendered 0 1 (Some 2).
Proof.
  split.
  - vm_compute. reflexivity.
  - vm_compute. reflexivity.
  - vm_compute. reflexivity.
  - vm_compute. lia.
  - vm_compute. lia.
  - intros v [= <-]. vm_compute. lia.
Qed.

Lemma lab_nobody_stubborn (s : state) (pid : nat) :
  deaf s = ∅ → ¬ stubborn s pid.
Proof. intros Hdeaf (p & _ & _ & Hp). rewrite Hdeaf in Hp. set_solver. Qed.

Example lab_lifecycle :
  events_since lab_env
    (run [Call (CRender "human"); Call (CRender "rgb_array"); Call (CStep (VInt 3));
          Dies 2 0%Z; Call (CRender "human"); Call CClose] lab_env)
  = [ESpawn ["gzclient"] 2; EPoll 2; EPoll 2; ESpawn ["gzclient"] 3;
     EPoll 3; ETerminate 3; EWait 3;
     ETerminate 1; ETerminate 0; EWait 1; EWait 0].
Proof. vm_compute. reflexivity. Qed.

Example lab_deaf_simulator_blocks :
  let s := (RopodEnv.__init__ "/sim.launch" "11311" "/gazebo/reset_world"
              (boot {["/sim.launch"]} {["/gazebo/reset_world"]} {["roslaunch"]})).1 in
  (RopodEnv.close s).2 = Block
  ∧ events_since s (RopodEnv.close s).1 = [ETerminate 1; ETerminate 0; EWait 1]
  ∧ exit_status (RopodEnv.close s).1 0 = None.
Proof. vm_compute. repeat split. Qed.

Lemma render_idempotent_while_alive_witness :
  RopodEnv.render "human" lab_rendered
    = (after lab_rendered (procs lab_rendered) [EPoll 2], Ok tt)
  ∧ filter is_spawn (events_since lab_rendered (RopodEnv.render "human" lab_rendered).1) = []
  ∧ filter is_spawn
      (events_since lab_env
         (run [Call (CRender "human"); Dies 0 1%Z; Call (CRender "human")] lab_env))
    = [ESpawn ["gzclient"] 2].
Proof.
  assert (Hvis : self lab_rendered !! "sim_vis_process" = Some (VPopen 2))
    by (vm_compute; reflexivity).
  assert (Hp : procs lab_rendered !! 2 = Some gzclient_proc)
    by (vm_compute; reflexivity).
  assert (Hrc : returncode_of gzclient_proc = None) by reflexivity.
  destruct (render_idempotent_while_alive lab_rendered 2 gzclient_proc "human"
              Hvis Hp Hrc) as (Hrun & Hspawn & _ & _ & Htwice).
  split_and!; [exact Hrun | exact Hspawn |].
  assert (Hnone : self lab_env !! "sim_vis_process" = Some VNone)
    by (vm_compute; reflexivity).
  assert (Henv : Forall (spares (length (procs lab_env))) [Dies 0 1%Z]).
  { constructor; [| constructor]. vm_compute. lia. }
  exact (proj1 (proj2 (Htwice lab_env "human" "human" [Dies 0 1%Z] Hnone Henv))).
Defined.

Lemma close_without_render_witness :
  (RopodEnv.close lab_env).2 = Ok tt
  ∧ self (RopodEnv.close lab_env).1 !! "sim_vis_process" = Some VNone
  ∧ events_since lab_env (RopodEnv.close lab_env).1
    = [ETerminate 1; ETerminate 0; EWait 1; EWait 0].
Proof.
  destruct (close_without_render lab_env 0 1 lab_env_instance)
    as (_ & _ & Hvis & _ & _ & Hcases).
  assert (Hnobody : ∀ pid, ¬ stubborn (RopodEnv.close lab_env).1 pid).
  { intros pid. apply lab_nobody_stubborn. vm_compute. reflexivity. }
  destruct Hcases as [[Hok Hev] | [(_ & _ & _ & Hst) | (_ & _ & _ & Hst)]].
  - split_and!; [exact Hok | exact Hvis | exact Hev].
  - destruct (Hnobody _ Hst).
  - destruct (Hnobody _ Hst).
Defined.

Lemma close_postcondition_witness :
  (RopodEnv.close lab_rendered).2 = Ok tt
  ∧ is_Some (exit_status (RopodEnv.close lab_rendered).1 1)
  ∧ is_Some (exit_status (RopodEnv.close lab_rendered).1 0).
Proof.
  destruct (close_postcondition lab_rendered 0 1 (Some 2) lab_rendered_instance)
    as [Hpost Hret].
  assert (Hdeaf : deaf lab_rendered = ∅) by (vm_compute; reflexivity).
  assert (Hok : (RopodEnv.close lab_rendered).2 = Ok tt).
  { apply Hret; [| | intros v _]; by apply lab_nobody_stubborn. }
  destruct (RopodEnv.close lab_rendered) as [s' r] eqn:E.
  cbn [snd] in Hok. subst r. cbn [fst snd].
  destruct (Hpost s' eq_refl) as [Hsim Hros].
  split_and!; [reflexivity | exact Hsim | exact Hros].
Defined.

Lemma close_teardown_order_witness :
  (RopodEnv.close lab_rendered).2 = Ok tt
  ∧ events_since lab_rendered (RopodEnv.close lab_rendered).1
    = [EPoll 2; ETerminate 2; EWait 2; ETerminate 1; ETerminate 0; EWait 1; EWait 0]
  ∧ exited (procs (RopodEnv.close lab_rendered).1) 1
  ∧ exited (procs (RopodEnv.close lab_rendered).1) 0
  ∧ exited (procs (RopodEnv.close lab_rendered).1) 2.
Proof.
  destruct (close_teardown_order lab_rendered 0 1 (Some 2) lab_rendered_instance)
    as [[(Hok & Hev & Xsim & Xros & Xvis) | (_ & pid & _ & _ & _ & _ & Hst)] _].
  - split_and!; [exact Hok | | exact Xsim | exact Xros | exact (Xvis 2 eq_refl)].
    rewrite Hev. vm_compute. reflexivity.
  - destruct (lab_nobody_stubborn (RopodEnv.close lab_rendered).1 pid); [| exact Hst].
    vm_compute. reflexivity.
Defined.

Lemma vis_handle_none_until_render_witness :
  let h := [Call (CStep (VInt 0)); Call CReset; Dies 1 0%Z; Call CClose] in
  self lab_env !! "sim_vis_process" = Some VNone
  ∧ self (run h lab_env) !! "sim_vis_process" = Some VNone.
Proof.
  intros h.
  assert (Hinit : RopodEnv.__init__ "/sim.launch" RopodEnv.default_roscore_port
                    RopodEnv.default_reset_sim_srv_name lab = (lab_env, Ok tt))
    by (vm_compute; reflexivity).
  assert (Hh : no_render h) by (repeat constructor).
  destruct (vis_handle_none_until_render lab lab_env _ _ _ h Hinit Hh)
    as (Hnone & _ & Hrun & _).
  split; [exact Hnone | exact Hrun].
Defined.

Lemma render_restarts_dead_client_witness :
  filter is_spawn (events_since lab_crashed (RopodEnv.render "human" lab_crashed).1)
    = [ESpawn ["gzclient"] 3]
  ∧ self (RopodEnv.render "human" lab_crashed).1 !! "sim_vis_process"
    = Some (VPopen 3).
Proof.
  assert (Hvis : self lab_crashed !! "sim_vis_process" = Some (VPopen 2))
    by (vm_compute; reflexivity).
  assert (Hp : procs lab_crashed !! 2 = Some (Process ["gzclient"] (Exited 1)))
    by (vm_compute; reflexivity).
  assert (Hrc : returncode_of (Process ["gzclient"] (Exited 1)) = Some 1%Z)
    by reflexivity.
  destruct (render_restarts_dead_client lab_crashed 2 _ 1%Z "human" Hvis Hp Hrc)
    as (_ & Hspawn & _ & Hself & _).
  split; [exact Hspawn | exact Hself].
Defined.

(** ** Further properties of [render] *)

Lemma render_unset (s : state) (mode : string) :
  self s !! "sim_vis_process" = None →
  RopodEnv.render mode s = (s, Raise (AttributeError "sim_vis_process")).
Proof.
  intros Hvis. unfold RopodEnv.render. rewrite py_bind_run.
  unfold getattr. rewrite Hvis. reflexivity.
Qed.

Lemma render_poll_raises (s : state) (mode : string) (v : pyval) (e : exn) :
  self s !! "sim_vis_process" = Some v →
  is_None v = false →
  poll v s = (s, Raise e) →
  RopodEnv.render mode s = (s, Raise e).
Proof.
  intros Hvis Hv He. unfold RopodEnv.render.
  rewrite (bind_getattr _ _ _ _ Hvis), Hv.
  rewrite py_bind_run, (bind_getattr _ _ _ _ Hvis), py_bind_run, He.
  reflexivity.
Qed.

(** Whenever [render] returns normally it leaves a process handle in
    [self.sim_vis_process], never [None]: either the handle that was there,
    in which case the only call made was a [poll] of it that reported
    [None], or the handle of a [gzclient] this call has spawned, which is
    not the handle that was there. *)
Theorem render_leaves_a_handle (s : state) (mode : string) :
  (RopodEnv.render mode s).2 = Ok tt →
  let r := RopodEnv.render mode s in
  ∃ v, self r.1 !! "sim_vis_process" = Some (VPopen v)
       ∧ ((self s !! "sim_vis_process" = Some (VPopen v)
           ∧ r.1 = after s (procs s) [EPoll v]
           ∧ ∃ p, procs s !! v = Some p ∧ returncode_of p = None)
          ∨ (v = length (procs s)
             ∧ self s !! "sim_vis_process" ≠ Some (VPopen v)
             ∧ procs r.1 = procs s ++ [gzclient_proc]
             ∧ filter is_spawn (events_since s r.1) = [ESpawn ["gzclient"] v])).
Proof.
  intros Hok r. subst r.
  assert (Hnew : ∀ evs,
             self s !! "sim_vis_process" ≠ Some (VPopen (length (procs s))) →
             filter is_spawn evs = [ESpawn ["gzclient"] (length (procs s))] →
             RopodEnv.render mode s = (rendered s evs, Ok tt) →
             ∃ v, self (RopodEnv.render mode s).1 !! "sim_vis_process" = Some (VPopen v)
                  ∧ ((self s !! "sim_vis_process" = Some (VPopen v)
                      ∧ (RopodEnv.render mode s).1 = after s (procs s) [EPoll v]
                      ∧ ∃ p, procs s !! v = Some p ∧ returncode_of p = None)
                     ∨ (v = length (procs s)
                        ∧ self s !! "sim_vis_process" ≠ Some (VPopen v)
                        ∧ procs (RopodEnv.render mode s).1 = procs s ++ [gzclient_proc]
                        ∧ filter is_spawn (events_since s (RopodEnv.render mode s).1)
                          = [ESpawn ["gzclient"] v]))).
  { intros evs Hold Hevs ->. cbn [fst]. exists (length (procs s)). split.
    - cbn [rendered self]. apply lookup_insert_eq.
    - right. split_and!; [done | done | done |].
      unfold events_since, rendered. cbn [log]. by rewrite drop_app_length. }
  destruct (self s !! "sim_vis_process") as [v |] eqn:Hvis.
  2:{ by rewrite (render_unset s mode Hvis) in Hok. }
  destruct v as [| n | str | pid | name cls].
  - apply (Hnew [ESpawn ["gzclient"] (length (procs s))]);
      [done | done | apply (render_first s mode Hvis)].
  - by rewrite (render_poll_raises s mode _ _ Hvis eq_refl eq_refl) in Hok.
  - by rewrite (render_poll_raises s mode _ _ Hvis eq_refl eq_refl) in Hok.
  - destruct (procs s !! pid) as [p |] eqn:Hp.
    + destruct (returncode_of p) as [c |] eqn:Hrc.
      * apply (Hnew [EPoll pid; ESpawn ["gzclient"] (length (procs s))]);
          [| done | apply (render_dead s mode pid p c Hvis Hp Hrc)].
        intros [= ->]. apply lookup_lt_Some in Hp. lia.
      * rewrite (render_alive s mode pid p Hvis Hp Hrc). cbn [fst].
        exists pid. split; [exact Hvis |]. left. split_and!; [done | done |].
        by exists p.
    + assert (He : poll (VPopen pid) s = (s, Raise (ChildProcessError pid)))
        by (unfold poll; by rewrite Hp).
      by rewrite (render_poll_raises s mode _ _ Hvis eq_refl He) in Hok.
  - by rewrite (render_poll_raises s mode _ _ Hvis eq_refl eq_refl) in Hok.
Qed.

Lemma render_leaves_a_handle_witness :
  ∃ v, self (RopodEnv.render "human" lab_crashed).1 !! "sim_vis_process"
       = Some (VPopen v)
       ∧ ((self lab_crashed !! "sim_vis_process" = Some (VPopen v)
           ∧ (RopodEnv.render "human" lab_crashed).1
             = after lab_crashed (procs lab_crashed) [EPoll v]
           ∧ ∃ p, procs lab_crashed !! v = Some p ∧ returncode_of p = None)
          ∨ (v = length (procs lab_crashed)
             ∧ self lab_crashed !! "sim_vis_process" ≠ Some (VPopen v)
             ∧ procs (RopodEnv.render "human" lab_crashed).1
               = procs lab_crashed ++ [gzclient_proc]
             ∧ filter is_spawn
                 (events_since lab_crashed (RopodEnv.render "human" lab_crashed).1)
               = [ESpawn ["gzclient"] v])).
Proof.
  apply (render_leaves_a_handle lab_crashed "human").
  vm_compute. reflexivity.
Defined.

(** The three ways [render] can go: an exception before any library call, a
    new client, or a poll of the client there is. *)
Lemma render_cases (s : state) (mode : string) :
  (∃ e, RopodEnv.render mode s = (s, Raise e))
  ∨ (∃ evs, RopodEnv.render mode s = (rendered s evs, Ok tt)
            ∧ filter is_stop evs = [])
  ∨ (∃ pid, RopodEnv.render mode s = (after s (procs s) [EPoll pid], Ok tt)).
Proof.
  destruct (self s !! "sim_vis_process") as [v |] eqn:Hvis.
  2:{ left. eexists. unfold RopodEnv.render. rewrite py_bind_run.
      unfold getattr. rewrite Hvis. reflexivity. }
  assert (Hother : ∀ e, poll v s = (s, Raise e) → is_None v = false →
                        RopodEnv.render mode s = (s, Raise e)).
  { intros e He Hv. unfold RopodEnv.render.
    rewrite (bind_getattr _ _ _ _ Hvis), Hv.
    rewrite py_bind_run, (bind_getattr _ _ _ _ Hvis), py_bind_run, He.
    reflexivity. }
  destruct v as [| n | str | pid | name cls].
  - right. left. eexists. split; [apply (render_first s mode Hvis) | done].
  - left. eexists. by apply Hother.
  - left. eexists. by apply Hother.
  - destruct (procs s !! pid) as [p |] eqn:Hp.
    + destruct (returncode_of p) as [c |] eqn:Hrc.
      * right. left. eexists.
        split; [apply (render_dead s mode pid p c Hvis Hp Hrc) | done].
      * right. right. exists pid. apply (render_alive s mode pid p Hvis Hp Hrc).
    + left. eexists. apply Hother; [| done]. unfold poll. by rewrite Hp.
  - left. eexists. by apply Hother.
Qed.

(** Whatever the machine, [render] does not block, stops no process and
    waits for none, and changes no entry of the process table: the table it
    leaves is the old one, with at most one process appended. *)
Theorem render_never_stops_a_process (s : state) (mode : string) :
  let r := RopodEnv.render mode s in
  r.2 ≠ Block
  ∧ (procs r.1 = procs s ∨ procs r.1 = procs s ++ [gzclient_proc])
  ∧ filter is_stop (events_since s r.1) = [].
Proof.
  intros r. subst r.
  destruct (render_cases s mode) as [[e ->] | [(evs & -> & Hevs) | [pid ->]]];
    cbn [fst snd].
  - unfold events_since. rewrite drop_all. by split_and!; [| left |].
  - unfold events_since, rendered. cbn [log procs]. rewrite drop_app_length.
    by split_and!; [| right |].
  - rewrite events_since_after. by split_and!; [| left |].
Qed.

(** ** Further properties of [close] *)

Lemma alter_fixed {A : Type} (f : A → A) (l : list A) (i : nat) (x : A) :
  l !! i = Some x → f x = x → alter f i l = l.
Proof.
  intros Hx Hf. apply list_eq. intros j. rewrite list_lookup_alter.
  case_decide as Hij; [| done]. subst j. rewrite Hx. cbn. by rewrite Hf.
Qed.

Lemma terminate_unmoved s pid p :
  procs s !! pid = Some p → deliver_sigterm (deaf s) p = p →
  terminate (VPopen pid) s = (after s (procs s) [ETerminate pid], Ok tt).
Proof.
  intros Hp Hfix. unfold terminate. rewrite Hp.
  by rewrite (alter_fixed _ _ _ _ Hp Hfix).
Qed.

Lemma wait_returned s pid p c :
  procs s !! pid = Some p → status p = Exited c →
  wait (VPopen pid) s = (after s (procs s) [EWait pid], Ok c).
Proof.
  intros Hp Hc. unfold wait. rewrite Hp.
  assert (Hfix : reap p = p) by (unfold reap; by rewrite Hc).
  rewrite Hfix. unfold returncode_of. rewrite Hc.
  by rewrite (alter_fixed _ _ _ _ Hp Hfix).
Qed.

(** When [close] has returned, everything the instance holds a handle to has
    exited, and the instance dictionary is the one before. *)
Lemma close_ok_all_exited s ros sim vis s' :
  instance s ros sim vis →
  RopodEnv.close s = (s', Ok tt) →
  self s' = self s
  ∧ advances (procs s) (procs s')
  ∧ exited (procs s') sim
  ∧ exited (procs s') ros
  ∧ ∀ v, vis = Some v → exited (procs s') v.
Proof.
  intros Hinst Hclose.
  pose proof Hinst as [Hros Hsim Hvis Lros Lsim Lvis].
  destruct (close_spec s ros sim vis Hinst)
    as (t' & evs & r & E & A & _ & Hcases).
  rewrite E in Hclose. injection Hclose as <- ->.
  destruct Hcases as [(_ & _ & X1 & X2) | (? & _)]; [| discriminate].
  split_and!; [done | done | done | done |].
  intros v ->. cbn [vis_value from_option] in Hvis.
  rewrite close_unfold, py_bind_run in E.
  destruct (RopodEnv._close_sim_client s) as [s1 [[] | e | ]] eqn:E1;
    [| discriminate | discriminate].
  pose proof (close_sim_client_exited s v s1 Hvis (Lvis v eq_refl) E1) as Xv.
  destruct (close_sim_client_spec s (Some v) Hvis Lvis)
    as (t1 & evs1 & r1 & E1' & A1 & _).
  rewrite E1 in E1'. injection E1' as -> _.
  destruct (teardown_spec (after s t1 evs1) ros sim)
    as (t2 & evs2 & r2 & E2 & A2 & _);
    [exact Hros | exact Hsim
     | by cbn; rewrite (advances_length _ _ A1)
     | by cbn; rewrite (advances_length _ _ A1) |].
  rewrite E2 in E. injection E as E _.
  subst t'. cbn [after procs] in *. by eapply exited_advances.
Qed.

(** After a [close] that has returned, the next [render] always starts a new
    visualization client: [close] leaves the handle of the client it stopped
    in place, and [render] finds that client exited. *)
Theorem render_after_close_respawns
    (s s1 : state) (ros sim : nat) (vis : option nat) (mode : string) :
  instance s ros sim vis →
  RopodEnv.close s = (s1, Ok tt) →
  let r := RopodEnv.render mode s1 in
  r.2 = Ok tt
  ∧ filter is_spawn (events_since s1 r.1) = [ESpawn ["gzclient"] (length (procs s1))]
  ∧ procs r.1 = procs s1 ++ [gzclient_proc]
  ∧ self r.1 !! "sim_vis_process" = Some (VPopen (length (procs s1))).
Proof.
  intros Hinst Hclose r. subst r.
  destruct (close_ok_all_exited s ros sim vis s1 Hinst Hclose)
    as (Hself & _ & _ & _ & Xvis).
  destruct Hinst as [_ _ Hvis _ _ _]. rewrite <- Hself in Hvis.
  assert (∃ evs, RopodEnv.render mode s1 = (rendered s1 evs, Ok tt)
                 ∧ filter is_spawn evs = [ESpawn ["gzclient"] (length (procs s1))])
    as (evs & -> & Hevs).
  { destruct vis as [v |]; cbn [vis_value from_option] in Hvis.
    - destruct (Xvis v eq_refl) as (p & c & Hp & Hc).
      assert (Hrc : returncode_of p = Some c)
        by (unfold returncode_of; by rewrite Hc).
      eexists. split; [apply (render_dead s1 mode v p c Hvis Hp Hrc) | reflexivity].
    - eexists. split; [apply (render_first s1 mode Hvis) | reflexivity]. }
  cbn [fst snd]. split_and!; [done | | done |].
  - unfold events_since, rendered. cbn [log]. by rewrite drop_app_length.
  - cbn [rendered self]. apply lookup_insert_eq.
Qed.

Lemma render_after_close_respawns_witness :
  filter is_spawn
    (events_since (RopodEnv.close lab_rendered).1
       (RopodEnv.render "human" (RopodEnv.close lab_rendered).1).1)
  = [ESpawn ["gzclient"] 3].
Proof.
  assert (Hclose : RopodEnv.close lab_rendered
                   = ((RopodEnv.close lab_rendered).1, Ok tt))
    by (vm_compute; reflexivity).
  exact (proj1 (proj2 (render_after_close_respawns lab_rendered _ 0 1 (Some 2)
                         "human" lab_rendered_instance Hclose))).
Defined.

Lemma exited_not_deaf ign p c : status p = Exited c → deliver_sigterm ign p = p.
Proof. intros Hc. unfold deliver_sigterm. by rewrite Hc. Qed.

Lemma teardown_quiescent s ros sim :
  self s !! "roscore_process" = Some (VPopen ros) →
  self s !! "sim_process" = Some (VPopen sim) →
  exited (procs s) ros → exited (procs s) sim →
  teardown s = (after s (procs s) (teardown_plan ros sim), Ok tt).
Proof.
  intros Hros Hsim (pr & cr & Hpr & Hcr) (ps & cs & Hps & Hcs). unfold teardown.
  rewrite (bind_getattr _ _ _ _ Hsim).
  rewrite (bind_ok _ _ _ _ _
             (terminate_unmoved s sim ps Hps (exited_not_deaf _ _ _ Hcs))).
  rewrite (bind_getattr "roscore_process" (VPopen ros)) by exact Hros.
  rewrite (bind_ok _ _ _ _ _
             (terminate_unmoved (after s (procs s) _) ros pr Hpr
                (exited_not_deaf _ _ _ Hcr))).
  rewrite after_after.
  rewrite (bind_getattr "sim_process" (VPopen sim)) by exact Hsim.
  rewrite (bind_ok _ _ _ _ _ (wait_returned (after s (procs s) _) sim ps cs Hps Hcs)).
  rewrite after_after.
  rewrite (bind_getattr "roscore_process" (VPopen ros)) by exact Hros.
  rewrite (bind_ok _ _ _ _ _ (wait_returned (after s (procs s) _) ros pr cr Hpr Hcr)).
  rewrite after_after. reflexivity.
Qed.

(** Closing twice is harmless.  A second [close] after one that has returned
    returns as well, raises nothing, and changes neither the process table
    nor the instance dictionary: it polls the client, if there is one, and
    repeats the four calls on the simulator and the broker, which find both
    exited. *)
Theorem close_again_is_harmless
    (s s1 : state) (ros sim : nat) (vis : option nat) :
  instance s ros sim vis →
  RopodEnv.close s = (s1, Ok tt) →
  RopodEnv.close s1
  = (after s1 (procs s1)
       (from_option (λ v, [EPoll v]) [] vis ++ teardown_plan ros sim),
     Ok tt).
Proof.
  intros Hinst Hclose.
  destruct (close_ok_all_exited s ros sim vis s1 Hinst Hclose)
    as (Hself & _ & Xsim & Xros & Xvis).
  destruct Hinst as [Hros Hsim Hvis _ _ _]. rewrite <- Hself in Hros, Hsim, Hvis.
  rewrite close_unfold.
  assert (Hclient : RopodEnv._close_sim_client s1
                    = (after s1 (procs s1) (from_option (λ v, [EPoll v]) [] vis), Ok tt)).
  { unfold RopodEnv._close_sim_client. rewrite (bind_getattr _ _ _ _ Hvis).
    destruct vis as [v |]; cbn [vis_value from_option is_None negb] in *.
    - destruct (Xvis v eq_refl) as (p & c & Hp & Hc).
      rewrite py_bind_run, (bind_getattr _ _ _ _ Hvis).
      rewrite (bind_ok _ _ _ _ _ (poll_spec s1 v p Hp)).
      unfold returncode_of. rewrite Hc. reflexivity.
    - by rewrite after_nil. }
  rewrite (bind_ok _ _ _ _ _ Hclient).
  rewrite (teardown_quiescent (after s1 (procs s1) _) ros sim Hros Hsim Xros Xsim).
  by rewrite after_after.
Qed.

Lemma close_again_is_harmless_witness :
  RopodEnv.close (RopodEnv.close lab_rendered).1
  = (after (RopodEnv.close lab_rendered).1 (procs (RopodEnv.close lab_rendered).1)
       [EPoll 2; ETerminate 1; ETerminate 0; EWait 1; EWait 0],
     Ok tt).
Proof.
  assert (Hclose : RopodEnv.close lab_rendered
                   = ((RopodEnv.close lab_rendered).1, Ok tt))
    by (vm_compute; reflexivity).
  exact (close_again_is_harmless lab_rendered _ 0 1 (Some 2)
           lab_rendered_instance Hclose).
Defined.

Lemma close_plan_no_spawn s ros sim vis :
  filter is_spawn (close_plan s ros sim vis) = [].
Proof.
  unfold close_plan, client_plan. destruct vis as [v |]; [| done].
  by destruct (exit_status s v).
Qed.

(** [close] keeps to its own processes.  On a constructed instance it never
    raises and never spawns; it leaves the instance dictionary alone; the
    process table keeps its length, every process keeps its command line and
    only moves forward in its life; and an entry that none of the three
    handles denotes is not changed at all. *)
Theorem close_keeps_to_its_processes
    (s : state) (ros sim : nat) (vis : option nat) :
  instance s ros sim vis →
  let r := RopodEnv.close s in
  (∀ e, r.2 ≠ Raise e)
  ∧ self r.1 = self s
  ∧ filter is_spawn (events_since s r.1) = []
  ∧ length (procs r.1) = length (procs s)
  ∧ advances (procs s) (procs r.1)
  ∧ (∀ pid, pid ≠ sim → pid ≠ ros → vis ≠ Some pid →
            procs r.1 !! pid = procs s !! pid).
Proof.
  intros Hinst r. subst r.
  destruct (close_spec s ros sim vis Hinst)
    as (t' & evs & r & E & A & F & Hcases).
  rewrite E. cbn [fst snd after self procs]. rewrite events_since_after.
  split_and!; [| done | | by apply advances_length | done | done].
  - destruct Hcases as [(-> & _) | (-> & _)]; done.
  - pose proof (close_plan_no_spawn s ros sim vis) as Hplan.
    destruct Hcases as [(_ & -> & _) | (_ & pid & rest & Hsplit & _)]; [done |].
    rewrite Hsplit, filter_app in Hplan. by apply app_eq_nil in Hplan as [-> _].
Qed.

Lemma close_keeps_to_its_processes_witness :
  self (RopodEnv.close lab_rendered).1 = self lab_rendered
  ∧ filter is_spawn (events_since lab_rendered (RopodEnv.close lab_rendered).1) = []
  ∧ length (procs (RopodEnv.close lab_rendered).1) = 3.
Proof.
  destruct (close_keeps_to_its_processes lab_rendered 0 1 (Some 2)
              lab_rendered_instance) as (_ & Hself & Hspawn & Hlen & _).
  split_and!; [exact Hself | exact Hspawn | exact Hlen].
Defined.

(** ** One visualization client at a time *)

Lemma tidy_advances base s s' vis :
  advances (procs s) (procs s') → tidy base s vis → tidy base s' vis.
Proof.
  intros Ha [Hbase Hvis Hclients]. split.
  - by rewrite (advances_length _ _ Ha).
  - done.
  - intros pid p' Hpid Hp'.
    destruct (advances_lookup_r _ _ _ _ Ha Hp') as (p & Hp & Hage).
    destruct (Hclients pid p Hpid Hp) as [Hargv Hexit]. split.
    + by rewrite (proj1 Hage).
    + intros Hne. destruct (Hexit Hne) as [c Hc]. exists c.
      by eapply ages_exited.
Qed.

Lemma rendered_instance s ros sim vis evs :
  instance s ros sim vis →
  instance (rendered s evs) ros sim (Some (length (procs s))).
Proof.
  intros [Hros Hsim Hvis Lros Lsim Lvis].
  split; cbn [self procs rendered vis_value from_option].
  - by rewrite lookup_insert_ne by done.
  - by rewrite lookup_insert_ne by done.
  - apply lookup_insert_eq.
  - rewrite length_app. lia.
  - rewrite length_app. lia.
  - intros v [= <-]. rewrite length_app. cbn. lia.
Qed.

Lemma rendered_tidy base s vis evs :
  tidy base s vis →
  (∀ v, vis = Some v → exited (procs s) v) →
  tidy base (rendered s evs) (Some (length (procs s))).
Proof.
  intros [Hbase Hvis Hclients] Hdead. split; cbn [rendered procs].
  - rewrite length_app. lia.
  - by intros v [= <-].
  - intros pid p Hpid Hp. apply lookup_app_Some in Hp as [Hp | [Hge Hp]].
    + destruct (Hclients pid p Hpid Hp) as [Hargv Hexit]. split; [done |].
      intros _. destruct (decide (vis = Some pid)) as [Heq | Hne].
      * destruct (Hdead pid Heq) as (q & c & Hq & Hc).
        rewrite Hp in Hq. injection Hq as <-. by exists c.
      * by apply Hexit.
    + destruct (pid - length (procs s)) as [| k] eqn:Hk; [| done].
      injection Hp as <-. split; [done |].
      intros Hne. destruct Hne. f_equal. lia.
Qed.

Lemma render_keeps s ros sim vis base mode :
  instance s ros sim vis → tidy base s vis →
  ∃ v, instance (RopodEnv.render mode s).1 ros sim (Some v)
       ∧ tidy base (RopodEnv.render mode s).1 (Some v).
Proof.
  intros Hinst Htidy. pose proof Hinst as [Hros Hsim Hvis Lros Lsim Lvis].
  destruct vis as [v |]; cbn [vis_value from_option] in Hvis.
  - specialize (Lvis v eq_refl).
    destruct (lookup_lt_is_Some_2 _ _ Lvis) as [p Hp].
    destruct (returncode_of p) as [c |] eqn:Hrc.
    + rewrite (render_dead s mode v p c Hvis Hp Hrc). cbn [fst].
      exists (length (procs s)).
      split; [by eapply rendered_instance | apply (rendered_tidy _ _ _ _ Htidy)].
      intros ? [= <-]. exists p, c. split; [done |].
      by apply returncode_Some_exited.
    + rewrite (render_alive s mode v p Hvis Hp Hrc). cbn [fst].
      exists v. split.
      * split; cbn; try done. by intros ? [= <-].
      * apply (tidy_advances base s); [apply advances_refl | done].
  - rewrite (render_first s mode Hvis). cbn [fst].
    exists (length (procs s)).
    split; [by eapply rendered_instance | apply (rendered_tidy _ _ _ _ Htidy)].
    by intros.
Qed.

Lemma close_keeps s ros sim vis base :
  instance s ros sim vis → tidy base s vis →
  instance (RopodEnv.close s).1 ros sim vis ∧ tidy base (RopodEnv.close s).1 vis.
Proof.
  intros Hinst Htidy. split; [by apply close_instance |].
  destruct (close_spec s ros sim vis Hinst) as (t' & evs & r & E & A & _).
  rewrite E. cbn [fst]. by apply (tidy_advances base s).
Qed.

Lemma process_exits_keeps s ros sim vis base pid code :
  instance s ros sim vis → tidy base s vis →
  instance (process_exits pid code s) ros sim vis
  ∧ tidy base (process_exits pid code s) vis.
Proof.
  intros Hinst Htidy. split; [by apply process_exits_instance |].
  apply (tidy_advances base s); [| done].
  cbn. apply advances_alter, ages_exits.
Qed.

Lemma run_keeps h s ros sim vis base :
  instance s ros sim vis → tidy base s vis →
  ∃ vis', instance (run h s) ros sim vis' ∧ tidy base (run h s) vis'.
Proof.
  revert s vis. induction h as [| a h IH]; intros s vis Hinst Htidy;
    [by exists vis |].
  destruct a as [c | pid code]; cbn [run].
  - assert (∃ vis', instance (invoke c s).1 ros sim vis'
                    ∧ tidy base (invoke c s).1 vis') as (vis' & Hinst' & Htidy').
    { destruct c; cbn [invoke]; [by exists vis | by exists vis | |].
      - destruct (render_keeps s ros sim vis base mode Hinst Htidy) as (v & Hv).
        exists (Some v). rewrite py_bind_run.
        by destruct (RopodEnv.render mode s) as [s' [[] | e | ]].
      - exists vis. pose proof (close_keeps s ros sim vis base Hinst Htidy) as Hc.
        rewrite py_bind_run.
        by destruct (RopodEnv.close s) as [s' [[] | e | ]]. }
    destruct (invoke c s) as [s' [v | e | ]]; cbn [fst] in Hinst', Htidy'; eauto.
  - destruct (process_exits_keeps s ros sim vis base pid code Hinst Htidy).
    by eapply IH.
Qed.

Lemma init_tidy s path port srv :
  path ∈ files s → srv ∈ services s →
  tidy (S (S (length (procs s)))) (RopodEnv.__init__ path port srv s).1 None.
Proof.
  intros Hpath Hsrv. rewrite (init_returns s path port srv Hpath Hsrv).
  cbn [fst]. split; cbn [procs].
  - rewrite length_app. cbn. lia.
  - done.
  - intros pid p Hpid Hp. apply lookup_lt_Some in Hp.
    rewrite length_app in Hp. cbn in Hp. lia.
Qed.

(** At every moment after a successful construction, whatever the caller
    and the environment have done, the instance has its broker and simulator
    handles, every process it has started besides these two is a
    [gzclient], and at most one of those has not exited: the one the
    visualization handle denotes. *)
Theorem one_client_at_a_time
    (s0 s1 : state) (path port srv : string) (h : list action) :
  RopodEnv.__init__ path port srv s0 = (s1, Ok tt) →
  ∃ vis,
    instance (run h s1) (length (procs s0)) (S (length (procs s0))) vis
    ∧ tidy (S (S (length (procs s0)))) (run h s1) vis.
Proof.
  intros Hinit.
  destruct (init_ok_inv _ _ _ _ _ Hinit) as [Hpath Hsrv].
  pose proof (init_instance s0 path port srv Hpath Hsrv) as Hinst.
  pose proof (init_tidy s0 path port srv Hpath Hsrv) as Htidy.
  rewrite Hinit in Hinst, Htidy. cbn [fst] in Hinst, Htidy.
  by eapply run_keeps.
Qed.

Lemma one_client_at_a_time_witness :
  ∃ vis,
    instance
      (run [Call (CRender "human"); Dies 2 1%Z; Call (CRender "human"); Call CClose;
            Call (CRender "human")] lab_env) 0 1 vis
    ∧ tidy 2
        (run [Call (CRender "human"); Dies 2 1%Z; Call (CRender "human"); Call CClose;
              Call (CRender "human")] lab_env) vis.
Proof.
  assert (Hinit : RopodEnv.__init__ "/sim.launch" RopodEnv.default_roscore_port
                    RopodEnv.default_reset_sim_srv_name lab = (lab_env, Ok tt))
    by (vm_compute; reflexivity).
  exact (one_client_at_a_time lab lab_env _ _ _ _ Hinit).
Defined.

(** A [close] that returns leaves nothing behind: whatever happened between
    construction and [close], every process the instance has started since
    its construction (broker, simulator and every visualization client) has
    exited. *)
Theorem close_leaves_no_process_behind
    (s0 s1 s3 : state) (path port srv : string) (h : list action) :
  RopodEnv.__init__ path port srv s0 = (s1, Ok tt) →
  RopodEnv.close (run h s1) = (s3, Ok tt) →
  ∀ pid, length (procs s0) ≤ pid → pid < length (procs s3) →
         exited (procs s3) pid.
Proof.
  intros Hinit Hclose pid Hge Hlt.
  destruct (init_ok_inv _ _ _ _ _ Hinit) as [Hpath Hsrv].
  pose proof (init_instance s0 path port srv Hpath Hsrv) as Hinst.
  pose proof (init_tidy s0 path port srv Hpath Hsrv) as Htidy.
  rewrite Hinit in Hinst, Htidy. cbn [fst] in Hinst, Htidy.
  destruct (run_keeps h s1 _ _ _ _ Hinst Htidy) as (vis & Hinst2 & Htidy2).
  destruct (close_ok_all_exited _ _ _ _ _ Hinst2 Hclose)
    as (_ & A & Xsim & Xros & Xvis).
  destruct (decide (pid = length (procs s0))) as [-> | Hn0]; [done |].
  destruct (decide (pid = S (length (procs s0)))) as [-> | Hn1]; [done |].
  destruct (decide (vis = Some pid)) as [Hv | Hv]; [by apply Xvis |].
  apply (exited_advances _ _ _ A).
  rewrite (advances_length _ _ A) in Hlt.
  destruct (lookup_lt_is_Some_2 _ _ Hlt) as [p Hp].
  destruct (tidy_clients _ _ _ Htidy2 pid p ltac:(lia) Hp) as [_ Hexit].
  destruct (Hexit Hv) as [c Hc]. by exists p, c.
Qed.

Lemma close_leaves_no_process_behind_witness :
  let h := [Call (CRender "human"); Dies 2 1%Z; Call (CRender "human")] in
  exited (procs (RopodEnv.close (run h lab_env)).1) 3.
Proof.
  intros h.
  assert (Hinit : RopodEnv.__init__ "/sim.launch" RopodEnv.default_roscore_port
                    RopodEnv.default_reset_sim_srv_name lab = (lab_env, Ok tt))
    by (vm_compute; reflexivity).
  assert (Hclose : RopodEnv.close (run h lab_env)
                   = ((RopodEnv.close (run h lab_env)).1, Ok tt))
    by (vm_compute; reflexivity).
  apply (close_leaves_no_process_behind lab lab_env _ _ _ _ h Hinit Hclose 3).
  - vm_compute. lia.
  - vm_compute. lia.
Defined.

(** ** A constructor that never returns *)


